(** * Beefcake test-data generator: [scripts/generate_test_data.py]

    A shallow embedding of the CSV generator script and the properties of
    the file it writes.  Python values are modelled as follows:

    - [int] is [Z]; [//] is floor division, [Z.div];
    - [str] is [string] (all text the script produces is ASCII);
    - [range(n)] is [seqZ 0 n], empty for [n <= 0];
    - a finite [float] is a sign, a mantissa and a binary exponent;
    - the [random] module is an interface [RandomSource] with the contract
      of its draws, threaded through a state and exception monad;
    - the file system is a finite map from paths to contents.

    Console output and wall-clock timing (the banner, the progress lines and
    the summary with its elapsed time and file size) are not part of the
    model: a run of [generate_test_csv] ends when the file has been written
    and closed.  What the script does after that, the summary with its
    division by the elapsed time and its output to the console, can still
    fail in the program; no outcome of the model shows it.  [Ok tt] says that
    the file is written and closed, and the properties of the file take it
    as their hypothesis. *)

From Stdlib Require Import ZArith NArith Ascii String.
From Stdlib Require Import Decimal DecimalString DecimalPos DecimalN DecimalZ DecimalFacts.
From stdpp Require Import gmap strings list fin_maps.

Local Open Scope Z_scope.

(** ** Python strings *)

Module PyStr.

(** The characters of a string, as a list. *)
Definition chars (s : string) : list ascii := list_ascii_of_string s.

(** [sep.join(parts)]. *)
Definition join (sep : string) (parts : list string) : string :=
  String.concat sep parts.

(** [str(i)] for an [int], which is also how an f-string renders [{i}]. *)
Definition str (i : Z) : string := NilZero.string_of_int (Z.to_int i).

(** The decimal digit [d], for [d < 10]. *)
Definition digit (d : N) : ascii := ascii_of_N (48 + d).

Definition is_digit (c : ascii) : bool :=
  let n := N_of_ascii c in ((48 <=? n) && (n <=? 57))%N.

Definition quote : ascii := "034"%char.
Definition comma : ascii := ","%char.
Definition CR : ascii := "013"%char.
Definition LF : ascii := "010"%char.

(** [string.ascii_letters + string.digits + ' '] *)
Definition ascii_lowercase : string := "abcdefghijklmnopqrstuvwxyz".
Definition ascii_uppercase : string := "ABCDEFGHIJKLMNOPQRSTUVWXYZ".
Definition ascii_letters : string := ascii_lowercase +:+ ascii_uppercase.
Definition digits : string := "0123456789".

(** Membership in the classes A-Z, a-z, 0-9 and space, by character code. *)
Definition is_alnum_space (c : ascii) : bool :=
  let n := N_of_ascii c in
  (((65 <=? n) && (n <=? 90)) || ((97 <=? n) && (n <=? 122))
   || ((48 <=? n) && (n <=? 57)) || (n =? 32))%N.

End PyStr.

(** ** Finite floats and the [.2f] format *)

Module PyFloat.
Import PyStr.

(** A finite float: [(-1)^f_neg * f_mant * 2^f_exp].  Every finite double
    is of this form (with [f_mant < 2^53]); NaN and the infinities are
    not. *)
Record float := Float { f_neg : bool; f_mant : N; f_exp : Z }.

(** The magnitude in hundredths, rounded to the nearest integer with ties
    to even: the digits that [format(x, '.2f')] prints. *)
Definition round_centi (x : float) : N :=
  if 0 <=? f_exp x then (100 * f_mant x * 2 ^ Z.to_N (f_exp x))%N
  else
    let d := (2 ^ Z.to_N (- f_exp x))%N in
    let n := (100 * f_mant x)%N in
    let q := (n / d)%N in
    let r := (n mod d)%N in
    if ((d <? 2 * r) || ((2 * r =? d) && N.odd q))%N then (q + 1)%N else q.

(** The unsigned rendering of [h] hundredths: integer part, point and two
    fraction digits. *)
Definition centi_digits (h : N) : string :=
  NilZero.string_of_uint (N.to_uint (h / 100))
  +:+ String "."%char
        (String (digit ((h mod 100) / 10)) (String (digit (h mod 10)) EmptyString)).

(** [f"{x:.2f}"]: the sign is printed whenever the sign bit is set, also
    when the digits round to zero. *)
Definition format_2f (x : float) : string :=
  (if f_neg x then "-" else "") +:+ centi_digits (round_centi x).

(** Reading a decimal numeral with exactly two fraction digits back:
    an optional minus sign, one or more digits, a point, two digits.  The
    result is the sign and the magnitude in hundredths. *)
Fixpoint split_point (s : string) : option (string * string) :=
  match s with
  | EmptyString => None
  | String c s' =>
      if Ascii.eqb c "."%char then Some (EmptyString, s')
      else match split_point s' with
           | Some (a, b) => Some (String c a, b)
           | None => None
           end
  end.

Definition digit_value (c : ascii) : option N :=
  if is_digit c then Some (N_of_ascii c - 48)%N else None.

Definition parse_unsigned_2f (s : string) : option N :=
  match split_point s with
  | Some (ip, String a (String b EmptyString)) =>
      match NilEmpty.uint_of_string ip, digit_value a, digit_value b with
      | Some u, Some da, Some db =>
          if String.eqb ip "" then None
          else Some (100 * N.of_uint u + 10 * da + db)%N
      | _, _, _ => None
      end
  | _ => None
  end.

Definition parse_2f (s : string) : option (bool * N) :=
  match s with
  | String "-" s' => h ← parse_unsigned_2f s'; Some (true, h)
  | _ => h ← parse_unsigned_2f s; Some (false, h)
  end.

(** The float literals the script compares [random.random()] with, as
    exact binary fractions [numerator / 2^exponent]. *)
Definition lit_0_05 : N * N := (3602879701896397, 56)%N.
Definition lit_0_02 : N * N := (5764607523034235, 58)%N.
Definition lit_0_03 : N * N := (1080863910568919, 55)%N.

(** [k / 2^53 < num / 2^e], for a draw [k / 2^53] of [random.random()]. *)
Definition random_lt (k : N) (lit : N * N) : bool :=
  (k * 2 ^ lit.2 <? lit.1 * 2 ^ 53)%N.

End PyFloat.

(** ** The [csv] writer

    [csv.writer(f)] with its defaults: the [excel] dialect, that is delimiter
    comma, the double quote as quote character (doubled inside a quoted
    field), line terminator CR LF and minimal quoting.  The file is opened
    with [newline=''], so the terminator reaches the file as it is. *)

Module CsvWriter.
Import PyStr.

Definition lineterminator : string := String CR (String LF EmptyString).

(** The characters that force a field into quotes. *)
Definition special (c : ascii) : bool :=
  Ascii.eqb c comma || Ascii.eqb c quote || Ascii.eqb c CR || Ascii.eqb c LF.

Definition needs_quote (field : string) : bool := existsb special (chars field).

Fixpoint double_quotes (s : string) : string :=
  match s with
  | EmptyString => EmptyString
  | String c s' =>
      if Ascii.eqb c quote then String quote (String quote (double_quotes s'))
      else String c (double_quotes s')
  end.

Definition quoted (field : string) : string :=
  String quote (double_quotes field +:+ String quote EmptyString).

Definition render_field (field : string) : string :=
  if needs_quote field then quoted field else field.

(** The text of one record.  A record that has a field and still an
    empty text (a single empty field) would be an empty line, so the
    writer emits that field quoted. *)
Definition record_text (fields : list string) : string :=
  let rec := join (String comma EmptyString) (render_field <$> fields) in
  if bool_decide (fields ≠ []) && String.eqb rec "" then quoted "" else rec.

(** The text written by [writer.writerow(fields)]. *)
Definition writerow (fields : list string) : string :=
  record_text fields +:+ lineterminator.

End CsvWriter.

(** ** Reading the file back: lines and fields

    The notions the properties of the output are stated with: the lines of
    a text are its CR LF terminated pieces, the fields of a line are its
    comma separated pieces. *)

Module CsvText.
Import PyStr.

(** [split_lines cur s]: the terminated lines of [s], where [cur] holds
    the characters of the line being read, last one first.  Characters
    after the last terminator are dropped. *)
Fixpoint split_lines (cur : list ascii) (s : string) : list string :=
  match s with
  | EmptyString => []
  | String c s' =>
      match cur with
      | p :: cur' =>
          if Ascii.eqb p CR && Ascii.eqb c LF
          then string_of_list_ascii (rev cur') :: split_lines [] s'
          else split_lines (c :: cur) s'
      | [] => split_lines [c] s'
      end
  end.

Definition lines (s : string) : list string := split_lines [] s.

(** The number of LF characters, what [wc -l] counts. *)
Definition count_LF (s : string) : nat :=
  length (filter (λ c, c = LF) (chars s)).

Fixpoint split_fields (cur : list ascii) (s : string) : list string :=
  match s with
  | EmptyString => [string_of_list_ascii (rev cur)]
  | String c s' =>
      if Ascii.eqb c comma
      then string_of_list_ascii (rev cur) :: split_fields [] s'
      else split_fields (c :: cur) s'
  end.

Definition fields (line : string) : list string := split_fields [] line.

End CsvText.

(** ** The [random] module

    The generator behind [random.random], [random.gauss], [random.randint],
    [random.choice] and [random.choices], as an interface: a hidden state and
    the draws on it, with the contract of each draw.

    - [rng_random] is [random.random()]: the draw is [k / 2^53], [k] is
      returned;
    - [rng_gauss mu sigma] is [random.gauss(mu, sigma)], a finite float;
    - [rng_below n] draws an index below [n], which is how [randint],
      [choice] and [choices] pick their result (the library computes it from
      random bits or from [floor(random() * n)]; the interface keeps the
      contract, an index in [0, n)). *)

Record RandomSource := {
  rng : Type;
  rng_random : rng → N * rng;
  rng_gauss : Z → Z → rng → PyFloat.float * rng;
  rng_below : N → rng → N * rng;
  rng_random_lt : ∀ s, ((rng_random s).1 < 2 ^ 53)%N;
  rng_below_lt : ∀ n s, (0 < n)%N → ((rng_below n s).1 < n)%N
}.

(** ** Exceptions and outcomes *)

Inductive exn := IndexError | ValueError | OSError.

Inductive result (A : Type) :=
  | Ok (a : A)
  | Raise (e : exn).
Arguments Ok {A} a.
Arguments Raise {A} e.

(** The exit status of the interpreter: 0 when the script runs to its end,
    1 when an exception reaches the top level. *)
Definition exit_status {A} (r : result A) : Z :=
  match r with Ok _ => 0 | Raise _ => 1 end.

(** ** The script *)

Section Script.
Context (R : RandomSource).
Import PyStr PyFloat.

(** What a run reads and changes: the state of the random generator, the
    files by path, and the paths that cannot be opened for writing. *)
Record world := World {
  w_rng : rng R;
  w_files : gmap string string;
  w_locked : gset string
}.

Definition set_rng (s : rng R) (w : world) : world :=
  World s (w_files w) (w_locked w).
Definition set_files (fs : gmap string string) (w : world) : world :=
  World (w_rng w) fs (w_locked w).

(** Computations: the world is threaded through, an exception stops the
    computation and keeps the world as it was when it was raised. *)
Definition M (A : Type) : Type := world → result A * world.

Definition ret {A} (a : A) : M A := λ w, (Ok a, w).
Definition raise {A} (e : exn) : M A := λ w, (Raise e, w).
Definition bind {A B} (m : M A) (k : A → M B) : M B :=
  λ w, match m w with
       | (Ok a, w') => k a w'
       | (Raise e, w') => (Raise e, w')
       end.

Local Notation "x <- m ;; k" := (bind m (λ x, k))
  (at level 100, m at next level, right associativity).
Local Notation "m ;;; k" := (bind m (λ _, k))
  (at level 100, right associativity).

(** [[f(x) for x in xs]], the effects in list order. *)
Fixpoint for_list {A B} (xs : list A) (f : A → M B) : M (list B) :=
  match xs with
  | [] => ret []
  | x :: xs' => y <- f x ;; ys <- for_list xs' f ;; ret (y :: ys)
  end.

(** [for x in xs: body(x)] *)
Fixpoint for_each {A} (xs : list A) (body : A → M unit) : M unit :=
  match xs with
  | [] => ret tt
  | x :: xs' => body x ;;; for_each xs' body
  end.

Definition range (n : Z) : list Z := seqZ 0 n.

(** [xs[i]] with Python's negative indices. *)
Definition index {A} (xs : list A) (i : Z) : M A :=
  let n := Z.of_nat (length xs) in
  let j := if i <? 0 then i + n else i in
  if (0 <=? j) && (j <? n)
  then match xs !! Z.to_nat j with Some x => ret x | None => raise IndexError end
  else raise IndexError.

(** *** Draws *)

Definition random : M N :=
  λ w, let '(k, s) := rng_random R (w_rng w) in (Ok k, set_rng s w).

Definition gauss (mu sigma : Z) : M float :=
  λ w, let '(x, s) := rng_gauss R mu sigma (w_rng w) in (Ok x, set_rng s w).

Definition randbelow (n : N) : M N :=
  λ w, let '(k, s) := rng_below R n (w_rng w) in (Ok k, set_rng s w).

(** [random.randint(a, b)], that is [randrange(a, b + 1)]. *)
Definition randint (a b : Z) : M Z :=
  let width := b + 1 - a in
  if 0 <? width
  then k <- randbelow (Z.to_N width) ;; ret (a + Z.of_N k)
  else raise ValueError.

(** [random.choice(seq)] *)
Definition choice {A} (seq : list A) : M A :=
  match seq with
  | [] => raise IndexError
  | _ => i <- randbelow (N.of_nat (length seq)) ;; index seq (Z.of_N i)
  end.

(** [random.choices(population, k=k)] *)
Definition choices {A} (population : list A) (k : Z) : M (list A) :=
  for_list (range k)
    (λ _, i <- randbelow (N.of_nat (length population)) ;;
          index population (Z.of_N i)).

(** *** Files *)

(** [open(path, 'w', newline='', encoding='utf-8')]: the file is created
    or truncated, unless the path cannot be opened. *)
Definition open_w (path : string) : M unit :=
  λ w, if decide (path ∈ w_locked w) then (Raise OSError, w)
       else (Ok tt, set_files (<[path := ""]> (w_files w)) w).

(** Writing through the file object opened on [path]: the text is added at
    the end of the file. *)
Definition write (path : string) (data : string) : M unit :=
  λ w, (Ok tt,
        set_files (<[path := default "" (w_files w !! path) +:+ data]> (w_files w)) w).

Definition writerow (path : string) (row : list string) : M unit :=
  write path (CsvWriter.writerow row).

(** *** [generate_test_csv] *)

(** Column types distribution. *)
Definition numeric_cols (num_cols : Z) : Z := num_cols `div` 3.
Definition categorical_cols (num_cols : Z) : Z := num_cols `div` 3.
Definition text_cols (num_cols : Z) : Z :=
  num_cols - numeric_cols num_cols - categorical_cols num_cols.

(** Column names. *)
Definition headers (num_cols : Z) : list string :=
  ((λ i, "numeric_" +:+ str i) <$> range (numeric_cols num_cols))
  ++ ((λ i, "category_" +:+ str i) <$> range (categorical_cols num_cols))
  ++ ((λ i, "text_" +:+ str i) <$> range (text_cols num_cols)).

(** The label [f"Cat{i}_{j}"]. *)
Definition label (i j : Z) : string := "Cat" +:+ str i +:+ "_" +:+ str j.

(** Categorical value pools, one per categorical column. *)
Definition gen_categories (num_cols : Z) : M (list (list string)) :=
  for_list (range (categorical_cols num_cols))
    (λ i, n <- randint 5 50 ;; ret (label i <$> range n)).

(** One numeric field: floats with some nulls. *)
Definition gen_numeric : M string :=
  r <- random ;;
  if random_lt r lit_0_05 then ret ""
  else x <- gauss 100 50 ;; ret (format_2f x).

(** One categorical field of column [i]. *)
Definition gen_categorical (categories : list (list string)) (i : Z) : M string :=
  r <- random ;;
  if random_lt r lit_0_02 then ret ""
  else pool <- index categories i ;; choice pool.

(** One text field: a string of variable length. *)
Definition alphabet : string := ascii_letters +:+ digits +:+ " ".

Definition gen_text : M string :=
  r <- random ;;
  if random_lt r lit_0_03 then ret ""
  else length <- randint 10 50 ;;
       cs <- choices (chars alphabet) length ;;
       ret (string_of_list_ascii cs).

(** The fields of one row, in column order. *)
Definition gen_row (num_cols : Z) (categories : list (list string)) : M (list string) :=
  nums <- for_list (range (numeric_cols num_cols)) (λ _, gen_numeric) ;;
  cats <- for_list (range (categorical_cols num_cols)) (gen_categorical categories) ;;
  texts <- for_list (range (text_cols num_cols)) (λ _, gen_text) ;;
  ret (nums ++ cats ++ texts).

Definition generate_test_csv (output_path : string) (rows num_cols : Z) : M unit :=
  categories <- gen_categories num_cols ;;
  (open_w output_path ;;;
   (writerow output_path (headers num_cols) ;;;
    for_each (range rows)
      (λ _, row <- gen_row num_cols categories ;; writerow output_path row))).

(** *** The entry point *)

Section Main.
(** The builtin [int] on a string: [None] stands for [ValueError]. *)
Context (py_int : string → option Z).

Definition int (s : string) : M Z :=
  match py_int s with Some z => ret z | None => raise ValueError end.

Definition default_output : string := "test_5M_100cols.csv".

(** [argv] is [sys.argv]: the script's name, then the arguments. *)
Definition main (argv : list string) : M unit :=
  num_rows <- (match argv !! 1%nat with Some a => int a | None => ret 5000000 end) ;;
  num_cols <- (match argv !! 2%nat with Some a => int a | None => ret 100 end) ;;
  let output := default default_output (argv !! 3%nat) in
  generate_test_csv output num_rows num_cols.
End Main.

End Script.

Arguments World {R} _ _ _.
Arguments w_rng {R} _.
Arguments w_files {R} _.
Arguments w_locked {R} _.
Arguments set_rng {R} _ _.
Arguments set_files {R} _ _.
Arguments ret {R A} _ _.
Arguments raise {R A} _ _.
Arguments bind {R A B} _ _ _.
Arguments for_list {R A B} _ _ _.
Arguments for_each {R A} _ _ _.
Arguments index {R A} _ _ _.
Arguments random {R} _.
Arguments gauss {R} _ _ _.
Arguments randbelow {R} _ _.
Arguments randint {R} _ _ _.
Arguments choice {R A} _ _.
Arguments choices {R A} _ _ _.
Arguments open_w {R} _ _.
Arguments write {R} _ _ _.
Arguments writerow {R} _ _ _.
Arguments gen_categories {R} _ _.
Arguments gen_numeric {R} _.
Arguments gen_categorical {R} _ _ _.
Arguments gen_text {R} _.
Arguments gen_row {R} _ _ _.
Arguments generate_test_csv {R} _ _ _ _.
Arguments int {R} _ _ _.
Arguments main {R} _ _ _.

(** [draws m P]: the computation [m] only draws from the random source.
    From every world it returns a value that satisfies [P], without an
    exception, and changes nothing but the state of the generator. *)
Definition draws {R A} (m : M R A) (P : A → Prop) : Prop :=
  ∀ w, ∃ a s, m w = (Ok a, set_rng s w) ∧ P a.

(** ** A concrete random source and a concrete [int], to run the model *)

Module Demo.
Import PyFloat.

Definition step (s : N) : N := ((6364136223846793005 * s + 1442695040888963407) mod 2 ^ 64)%N.

Definition demo_random (s : N) : N * N := ((s / 2048) mod 2 ^ 53, step s)%N.
Definition demo_gauss (mu sigma : Z) (s : N) : float * N :=
  (Float (N.odd (s / 4096)) (s mod 2 ^ 53) (-46), step s).
Definition demo_below (n : N) (s : N) : N * N := (((s / 65536) mod n)%N, step s).

Definition source : RandomSource :=
  {| rng := N;
     rng_random := demo_random;
     rng_gauss := demo_gauss;
     rng_below := demo_below;
     rng_random_lt := λ s, N.mod_lt _ (2 ^ 53) (N.pow_nonzero 2 53 (N.succ_0_discr 1));
     rng_below_lt := λ n s H, N.mod_lt _ n (proj2 (N.neq_0_lt_0 n) H) |}.

(** [int] on plain decimal numerals: an optional sign and digits.  The
    builtin reads more spellings (white space around the numeral, single
    underscores between digits); the runs below give plain numerals. *)
Definition unsigned_literal (s : string) : option Z :=
  if String.eqb s "" then None
  else u ← NilEmpty.uint_of_string s; Some (Z.of_N (N.of_uint u)).

Definition int_literal (s : string) : option Z :=
  match s with
  | String "-" s' => Z.opp <$> unsigned_literal s'
  | String "+" s' => unsigned_literal s'
  | _ => unsigned_literal s
  end.

Definition world0 (seed : N) : world source := World (R:=source) seed ∅ ∅.

(** The contents of [path] after [python generate_test_data.py args]. *)
Definition run (seed : N) (args : list string) : result unit * world source :=
  main int_literal ("generate_test_data.py" :: args) (world0 seed).

(** A world where [out.csv] cannot be opened, and one that holds an older
    file. *)
Definition world_locked (seed : N) : world source :=
  World (R:=source) seed ∅ {["out.csv"]}.
Definition world_old (seed : N) : world source :=
  World (R:=source) seed {["old.csv" := "stale"]} ∅.

(** The world after [generate_test_csv("out.csv", rows, num_cols)]. *)
Definition after (seed : N) (rows num_cols : Z) : world source :=
  (generate_test_csv "out.csv" rows num_cols (world0 seed)).2.

End Demo.


(** ** The vocabulary of the properties *)

Module Shape.
Import PyStr PyFloat.

(** A text with no comma, no quote character and no line break. *)
Definition plain (s : string) : Prop :=
  Forall (λ c, CsvWriter.special c = false) (chars s).

Definition no_comma (s : string) : Prop := Forall (λ c, c ≠ comma) (chars s).
Definition no_LF (s : string) : Prop := Forall (λ c, c ≠ LF) (chars s).

(** The text of a file written record by record. *)
Definition file_text (records : list (list string)) : string :=
  foldr (λ r acc, CsvWriter.writerow r +:+ acc) "" records.

(** What a field of each column type looks like. *)
Definition numeric_field (s : string) : Prop :=
  s = "" ∨ ∃ x : float, s = format_2f x.

Definition categorical_field (pool : list string) (s : string) : Prop :=
  s = "" ∨ s ∈ pool.

Definition text_field (s : string) : Prop :=
  s = "" ∨ ((10 ≤ String.length s ≤ 50)%nat
            ∧ Forall (λ c, is_alnum_space c = true) (chars s)).

(** The pool of categorical column [i]: the labels [Cat<i>_<j>] for [j]
    below a size between 5 and 50. *)
Definition pool_of (i : Z) (pool : list string) : Prop :=
  ∃ n, 5 ≤ n ≤ 50 ∧ pool = label i <$> range n.

(** The rows a run with these pools can write: numeric fields, then one
    categorical field per pool, then text fields. *)
Definition row_of (num_cols : Z) (categories : list (list string)) (row : list string) : Prop :=
  ∃ nums cats texts,
    row = nums ++ cats ++ texts
    ∧ length nums = Z.to_nat (numeric_cols num_cols)
    ∧ Forall numeric_field nums
    ∧ Forall2 categorical_field categories cats
    ∧ length texts = Z.to_nat (text_cols num_cols)
    ∧ Forall text_field texts.

End Shape.

(** ** Draws apart from the files, and the progress indicator *)

(** [draw_of m s]: what [m] returns and where it leaves the random
    generator, started from the state [s] with no file at all. *)
Definition draw_of {R A} (m : M R A) (s : rng R) : result A * rng R :=
  let '(r, w) := m (World s ∅ ∅) in (r, w_rng w).

(** [pure_draw m]: the computation [m] reads and changes nothing but the
    state of the random generator. *)
Definition pure_draw {R A} (m : M R A) : Prop :=
  ∀ w, m w = ((draw_of m (w_rng w)).1, set_rng (draw_of m (w_rng w)).2 w).

(** A character of 7-bit ASCII: UTF-8 encodes it as one byte, itself. *)
Definition ascii7 (c : ascii) : bool := (N_of_ascii c <? 128)%N.
Definition ascii7_text (s : string) : Prop :=
  Forall (λ c, ascii7 c = true) (PyStr.chars s).

(** The progress indicator of the row loop: after row [row_num] a progress
    line is printed when [(row_num + 1) % 100_000 == 0]; the line shows the
    count [row_num + 1]. *)
Definition progress_due (row_num : Z) : bool := (row_num + 1) `mod` 100000 =? 0.

(** The counts shown by the progress lines of a run of [rows] rows, in the
    order of the loop. *)
Definition progress_points (rows : Z) : list Z :=
  (λ row_num, row_num + 1) <$> filter (λ row_num, progress_due row_num = true) (range rows).

(** ** The fields as the specification words them

    A second description of the numeric and of the text field, written on
    the draws of the random generator and not on the code: a field is empty
    when a draw of [random.random()] is below the null rate, and otherwise

    - numeric: the [.2f] rendering of a draw of [random.gauss(100, 50)];
    - text: a length between 10 and 50, drawn first, and that many characters
      of the alphabet A-Z, a-z, 0-9 and space, each drawn in turn.

    The generators of the script are compared with these. *)

Section FieldDraws.
Context (R : RandomSource).
Import PyStr PyFloat.

(** [n] draws one after the other: the values and the state that is left. *)
Fixpoint draws_n {A} (draw : rng R → A * rng R) (n : nat) (s : rng R) : list A * rng R :=
  match n with
  | O => ([], s)
  | S n' =>
      let '(a, s1) := draw s in
      let '(l, s2) := draws_n draw n' s1 in
      (a :: l, s2)
  end.

Definition numeric_draw (s : rng R) : string * rng R :=
  let '(k, s1) := rng_random R s in
  if random_lt k lit_0_05 then ("", s1)
  else let '(x, s2) := rng_gauss R 100 50 s1 in (format_2f x, s2).

(** One character of the 63 of the alphabet. *)
Definition char_draw (s : rng R) : ascii * rng R :=
  let '(i, s1) := rng_below R 63 s in
  (nth (N.to_nat i) (chars alphabet) " "%char, s1).

(** The length is [10 + i] for a draw [i] below 41. *)
Definition text_draw (s : rng R) : string * rng R :=
  let '(k, s1) := rng_random R s in
  if random_lt k lit_0_03 then ("", s1)
  else
    let '(i, s2) := rng_below R 41 s1 in
    let '(cs, s3) := draws_n char_draw (10 + N.to_nat i) s2 in
    (string_of_list_ascii cs, s3).

End FieldDraws.

Arguments draws_n {R A} _ _ _.
Arguments numeric_draw {R} _.
Arguments char_draw {R} _.
Arguments text_draw {R} _.

(** * Properties *)

(** ** Unit checks of the model *)

Section UnitChecks.
Import PyStr PyFloat.

Example str_examples : str 0 = "0" ∧ str 12 = "12" ∧ str (-7) = "-7".
Proof. done. Qed.

(** 125.625 is a tie and goes to the even hundredth; -2^-10 keeps its sign. *)
Example format_2f_examples :
  format_2f (Float false 1005 (-3)) = "125.62"
  ∧ format_2f (Float false 1007 (-3)) = "125.88"
  ∧ format_2f (Float true 1 (-10)) = "-0.00"
  ∧ format_2f (Float false 3 5) = "96.00".
Proof. by vm_compute. Qed.

Example parse_2f_examples :
  parse_2f "125.62" = Some (false, 12562%N)
  ∧ parse_2f "-0.05" = Some (true, 5%N)
  ∧ parse_2f ".50" = None ∧ parse_2f "1.5" = None ∧ parse_2f "1.505" = None.
Proof. by vm_compute. Qed.

Example random_lt_examples :
  random_lt 450359962737049 lit_0_05 = true
  ∧ random_lt 450359962737050 lit_0_05 = false.
Proof. by vm_compute. Qed.

Example partition_examples :
  (numeric_cols 100, categorical_cols 100, text_cols 100) = (33, 33, 34)
  ∧ (numeric_cols 9, categorical_cols 9, text_cols 9) = (3, 3, 3)
  ∧ (numeric_cols 2, categorical_cols 2, text_cols 2) = (0, 0, 2)
  ∧ (numeric_cols (-1), categorical_cols (-1), text_cols (-1)) = (-1, -1, 1).
Proof. done. Qed.

Example headers_example :
  headers 7 = ["numeric_0"; "numeric_1"; "category_0"; "category_1";
               "text_0"; "text_1"; "text_2"].
Proof. done. Qed.

Example writerow_examples :
  CsvWriter.writerow ["a"; ""; "b c"] = "a,,b c" +:+ CsvWriter.lineterminator
  ∧ CsvWriter.writerow [] = CsvWriter.lineterminator
  ∧ CsvWriter.writerow [""] = String quote (String quote CsvWriter.lineterminator)
  ∧ CsvWriter.writerow ["a,b"]
    = String quote ("a,b" +:+ String quote CsvWriter.lineterminator).
Proof. by vm_compute. Qed.

Example read_examples :
  CsvText.lines ("a,,b c" +:+ CsvWriter.lineterminator +:+ "x,y" +:+ CsvWriter.lineterminator)
  = ["a,,b c"; "x,y"]
  ∧ CsvText.fields "a,,b c" = ["a"; ""; "b c"].
Proof. by vm_compute. Qed.

Example int_literal_examples :
  Demo.int_literal "1000" = Some 1000 ∧ Demo.int_literal "-1" = Some (-1)
  ∧ Demo.int_literal "x2" = None ∧ Demo.int_literal "" = None.
Proof. by vm_compute. Qed.

End UnitChecks.

(** ** Strings as lists of characters *)

Section StringFacts.
Import PyStr.

Lemma sapp_nil_l (s : string) : "" +:+ s = s.
Proof. reflexivity. Qed.

Lemma sapp_cons (c : ascii) (a b : string) : String c a +:+ b = String c (a +:+ b).
Proof. reflexivity. Qed.

Lemma sapp_nil_r (s : string) : s +:+ "" = s.
Proof. induction s as [|c s IH]; [done|]. by rewrite sapp_cons, IH. Qed.

Lemma sapp_assoc (a b c : string) : (a +:+ b) +:+ c = a +:+ (b +:+ c).
Proof. induction a as [|x a IH]; [done|]. by rewrite !sapp_cons, IH. Qed.

Lemma chars_cons (c : ascii) (s : string) : chars (String c s) = c :: chars s.
Proof. reflexivity. Qed.

Lemma chars_app (a b : string) : chars (a +:+ b) = chars a ++ chars b.
Proof.
  induction a as [|c a IH]; [done|].
  rewrite sapp_cons, !chars_cons, IH. done.
Qed.

Lemma chars_of_list (l : list ascii) : chars (string_of_list_ascii l) = l.
Proof. apply list_ascii_of_string_of_list_ascii. Qed.

Lemma of_list_chars (s : string) : string_of_list_ascii (chars s) = s.
Proof. apply string_of_list_ascii_of_string. Qed.

Lemma chars_inj (a b : string) : chars a = chars b → a = b.
Proof. intros H. rewrite <- (of_list_chars a), <- (of_list_chars b). by rewrite H. Qed.

Lemma length_chars (s : string) : length (chars s) = String.length s.
Proof. induction s as [|c s IH]; [done|]. by rewrite chars_cons; simpl; rewrite IH. Qed.

Lemma chars_nil_inv (s : string) : chars s = [] → s = "".
Proof. by destruct s. Qed.

End StringFacts.

(** ** Decimal numerals *)

Section DecimalFacts.
Import PyStr.

Lemma uint_digits (d : uint) : Forall (λ c, is_digit c = true) (chars (NilEmpty.string_of_uint d)).
Proof. induction d; simpl; rewrite ?chars_cons; constructor; done. Qed.

Lemma N_to_uint_nonnil (n : N) : N.to_uint n ≠ Nil.
Proof. destruct n as [|p]; [done|]. apply DecimalPos.Unsigned.to_uint_nonnil. Qed.

Lemma string_of_uint_nonnil (d : uint) :
  d ≠ Nil → NilZero.string_of_uint d = NilEmpty.string_of_uint d.
Proof. by destruct d. Qed.

Lemma string_of_uint_nonempty (d : uint) : d ≠ Nil → NilEmpty.string_of_uint d ≠ "".
Proof. by destruct d. Qed.

(** The numeral of a natural number: digits only, at least one. *)
Lemma N_numeral_digits (n : N) :
  Forall (λ c, is_digit c = true) (chars (NilZero.string_of_uint (N.to_uint n))).
Proof. rewrite string_of_uint_nonnil by apply N_to_uint_nonnil. apply uint_digits. Qed.

Lemma N_numeral_read (n : N) :
  NilEmpty.uint_of_string (NilZero.string_of_uint (N.to_uint n)) = Some (N.to_uint n).
Proof. rewrite string_of_uint_nonnil by apply N_to_uint_nonnil. apply NilEmpty.usu. Qed.

Lemma N_numeral_nonempty (n : N) : NilZero.string_of_uint (N.to_uint n) ≠ "".
Proof.
  rewrite string_of_uint_nonnil by apply N_to_uint_nonnil.
  apply string_of_uint_nonempty, N_to_uint_nonnil.
Qed.

Lemma str_nonneg (i : Z) : 0 ≤ i → str i = NilZero.string_of_uint (N.to_uint (Z.to_N i)).
Proof. destruct i as [|p|p]; [done|done|lia]. Qed.

Lemma str_neg (i : Z) :
  i < 0 → str i = String "-" (NilZero.string_of_uint (N.to_uint (Z.to_N (- i)))).
Proof. destruct i as [|p|p]; [lia|lia|done]. Qed.

Lemma str_nonneg_digits (i : Z) : 0 ≤ i → Forall (λ c, is_digit c = true) (chars (str i)).
Proof. intros H. rewrite str_nonneg by done. apply N_numeral_digits. Qed.

Lemma str_chars (i : Z) :
  Forall (λ c, is_digit c = true ∨ c = "-"%char) (chars (str i)).
Proof.
  destruct (Z_lt_le_dec i 0) as [Hi|Hi].
  - rewrite str_neg by done. rewrite chars_cons. constructor; [by right|].
    eapply Forall_impl; [apply N_numeral_digits|]. by left.
  - eapply Forall_impl; [by apply str_nonneg_digits|]. by left.
Qed.

Lemma to_int_wf (i : Z) : Z.to_int i ≠ Pos Nil ∧ Z.to_int i ≠ Neg Nil.
Proof.
  destruct i as [|p|p]; simpl; split; try done;
    intros [=H]; by apply (DecimalPos.Unsigned.to_uint_nonnil p).
Qed.

(** Reading [str i] back gives [i]. *)
Lemma str_read (i : Z) : Z.of_int <$> NilZero.int_of_string (str i) = Some i.
Proof.
  unfold str. destruct (to_int_wf i) as [H1 H2].
  rewrite NilZero.isi by done. simpl. by rewrite DecimalZ.of_to.
Qed.

Lemma str_inj (i j : Z) : str i = str j → i = j.
Proof.
  intros H. pose proof (str_read i) as Hi. rewrite H, str_read in Hi. congruence.
Qed.

End DecimalFacts.

(** ** The two-digit format *)

Section FormatFacts.
Import PyStr PyFloat.

Lemma is_digit_not_point (c : ascii) : is_digit c = true → Ascii.eqb c "."%char = false.
Proof.
  intros H. destruct (Ascii.eqb_spec c "."%char) as [->|]; [|done].
  by vm_compute in H.
Qed.

Lemma is_digit_not_minus (c : ascii) : is_digit c = true → c ≠ "-"%char.
Proof. intros H ->. by vm_compute in H. Qed.

Lemma split_point_digits (ip rest : string) :
  Forall (λ c, is_digit c = true) (chars ip) →
  split_point (ip +:+ String "."%char rest) = Some (ip, rest).
Proof.
  induction ip as [|c ip IH]; intros H.
  - done.
  - rewrite chars_cons in H. apply Forall_cons in H as [Hc H].
    rewrite sapp_cons. simpl. rewrite (is_digit_not_point c Hc), IH by done. done.
Qed.

Lemma digit_value_digit (k : N) : (k < 10)%N → digit_value (digit k) = Some k.
Proof.
  intros H. unfold digit_value, digit, is_digit.
  rewrite N_ascii_embedding by lia.
  replace ((48 <=? 48 + k)%N && (48 + k <=? 57)%N) with true.
  - f_equal. lia.
  - symmetry. apply andb_true_iff. split; apply N.leb_le; lia.
Qed.

Lemma is_digit_digit (k : N) : (k < 10)%N → is_digit (digit k) = true.
Proof.
  intros H. pose proof (digit_value_digit k H) as E.
  unfold digit_value in E. by destruct (is_digit (digit k)).
Qed.

Lemma centi_split (h : N) :
  (100 * (h / 100) + 10 * ((h mod 100) / 10) + h mod 10 = h)%N.
Proof.
  pose proof (N.div_mod h 100 ltac:(done)) as H1.
  pose proof (N.div_mod (h mod 100) 10 ltac:(done)) as H2.
  assert ((h mod 100) mod 10 = h mod 10)%N as H3.
  { replace 100%N with (10 * 10)%N by done.
    rewrite N.Div0.mod_mul_r. rewrite N.mul_comm, N.Div0.mod_add. apply N.Div0.mod_mod. }
  lia.
Qed.

Lemma parse_centi_digits (h : N) : parse_unsigned_2f (centi_digits h) = Some h.
Proof.
  unfold parse_unsigned_2f, centi_digits.
  rewrite split_point_digits by apply N_numeral_digits.
  rewrite N_numeral_read.
  rewrite !digit_value_digit.
  - destruct (String.eqb_spec (NilZero.string_of_uint (N.to_uint (h / 100))) "") as [E|_].
    + by apply N_numeral_nonempty in E.
    + rewrite DecimalN.Unsigned.of_to. f_equal. apply centi_split.
  - apply N.mod_lt. done.
  - apply N.Div0.div_lt_upper_bound. apply N.mod_lt. done.
Qed.

Lemma parse_2f_no_sign (c : ascii) (s : string) :
  c ≠ "-"%char →
  parse_2f (String c s) = (h ← parse_unsigned_2f (String c s); Some (false, h)).
Proof.
  intros H. destruct c as [[] [] [] [] [] [] [] []]; try reflexivity. done.
Qed.

Lemma centi_digits_head (h : N) :
  ∃ c s, centi_digits h = String c s ∧ is_digit c = true.
Proof.
  unfold centi_digits.
  pose proof (N_numeral_digits (h / 100)) as Hd.
  pose proof (N_numeral_nonempty (h / 100)) as Hn.
  destruct (NilZero.string_of_uint (N.to_uint (h / 100))) as [|c s]; [done|].
  rewrite chars_cons in Hd. apply Forall_cons in Hd as [Hc _].
  rewrite sapp_cons. eauto.
Qed.

(** Reading a formatted float back gives its sign and its rounded
    hundredths. *)
Lemma parse_format_2f (x : float) :
  parse_2f (format_2f x) = Some (f_neg x, round_centi x).
Proof.
  unfold format_2f. destruct (f_neg x).
  - change ("-" +:+ ?s) with (String "-"%char s). simpl.
    by rewrite parse_centi_digits.
  - rewrite sapp_nil_l.
    destruct (centi_digits_head (round_centi x)) as (c & s & E & Hc).
    pose proof (parse_centi_digits (round_centi x)) as Hp. rewrite E in Hp |- *.
    rewrite parse_2f_no_sign by by apply is_digit_not_minus.
    by rewrite Hp.
Qed.

(** The characters of a formatted float: digits, a point, a minus sign. *)
Lemma format_2f_chars (x : float) :
  Forall (λ c, is_digit c = true ∨ c = "."%char ∨ c = "-"%char) (chars (format_2f x)).
Proof.
  unfold format_2f, centi_digits. rewrite !chars_app. apply Forall_app. split.
  - destruct (f_neg x); [|constructor].
    constructor; [|constructor]. by right; right.
  - apply Forall_app. split.
    + eapply Forall_impl; [apply N_numeral_digits|]. by left.
    + rewrite !chars_cons. repeat apply Forall_cons_2; [| | |apply Forall_nil_2].
      * by right; left.
      * left. apply is_digit_digit. apply N.Div0.div_lt_upper_bound. by apply N.mod_lt.
      * left. apply is_digit_digit. by apply N.mod_lt.
Qed.

End FormatFacts.

(** ** The writer on plain fields, and reading its text back *)

Section CsvFacts.
Import PyStr CsvWriter CsvText Shape.

Lemma needs_quote_plain (s : string) : plain s → needs_quote s = false.
Proof.
  unfold plain, needs_quote. induction (chars s) as [|c l IH]; [done|].
  intros [Hc Hl]%Forall_cons. simpl. by rewrite Hc, IH.
Qed.

Lemma render_field_plain (s : string) : plain s → render_field s = s.
Proof. intros H. unfold render_field. by rewrite needs_quote_plain. Qed.

Lemma render_fields_plain (fs : list string) :
  Forall plain fs → render_field <$> fs = fs.
Proof.
  induction 1 as [|f fs Hf _ IH]; [done|].
  rewrite fmap_cons, IH, render_field_plain; done.
Qed.

Lemma join_cons2 (sep f g : string) (fs : list string) :
  join sep (f :: g :: fs) = f +:+ sep +:+ join sep (g :: fs).
Proof. reflexivity. Qed.

Lemma join_nonempty (f g : string) (fs : list string) :
  join (String comma EmptyString) (f :: g :: fs) ≠ "".
Proof. rewrite join_cons2. by destruct f. Qed.

(** A record of plain fields is written as the fields joined by commas,
    unless it is the single empty field. *)
Lemma record_text_plain (fs : list string) :
  Forall plain fs → fs ≠ [""] →
  record_text fs = join (String comma EmptyString) fs.
Proof.
  intros Hp Hne. unfold record_text. rewrite render_fields_plain by done.
  destruct fs as [|f [|g fs]].
  - done.
  - change (join (String comma EmptyString) [f]) with f.
    destruct (String.eqb_spec f "") as [->|]; [done|].
    by rewrite andb_false_r.
  - destruct (String.eqb_spec (join (String comma EmptyString) (f :: g :: fs)) "") as [E|];
      [by apply join_nonempty in E|].
    by rewrite andb_false_r.
Qed.

Lemma record_text_single_empty : record_text [""] = String quote (String quote EmptyString).
Proof. reflexivity. Qed.

(** *** Fields *)

Lemma plain_no_comma (s : string) : plain s → no_comma s.
Proof.
  intros H. eapply Forall_impl; [exact H|]. intros c Hc ->. by vm_compute in Hc.
Qed.

Lemma split_fields_app (cur : list ascii) (f rest : string) :
  no_comma f →
  split_fields cur (f +:+ rest) = split_fields (rev (chars f) ++ cur) rest.
Proof.
  unfold no_comma. revert cur. induction f as [|c f IH]; intros cur H; [done|].
  rewrite chars_cons in H. apply Forall_cons in H as [Hc H].
  rewrite sapp_cons. simpl.
  destruct (Ascii.eqb_spec c comma) as [->|_]; [done|].
  rewrite IH by done. f_equal. simpl. by rewrite <- List.app_assoc.
Qed.

Lemma fields_join (fs : list string) :
  fs ≠ [] → Forall no_comma fs →
  fields (join (String comma EmptyString) fs) = fs.
Proof.
  intros Hne H. unfold fields.
  induction H as [|f fs Hf Hfs IH]; [done|].
  destruct fs as [|g fs].
  - simpl. rewrite <- (sapp_nil_r f) at 1. rewrite split_fields_app by done.
    simpl. by rewrite List.app_nil_r, rev_involutive, of_list_chars.
  - rewrite join_cons2, split_fields_app by done.
    rewrite sapp_cons, sapp_nil_l. simpl.
    rewrite List.app_nil_r, rev_involutive, of_list_chars.
    f_equal. by apply IH.
Qed.

(** *** Lines *)

Lemma split_lines_push (cur : list ascii) (c : ascii) (s : string) :
  c ≠ LF → split_lines cur (String c s) = split_lines (c :: cur) s.
Proof.
  intros Hc. simpl. destruct cur as [|p cur]; [done|].
  destruct (Ascii.eqb_spec c LF) as [->|_]; [done|]. by rewrite andb_false_r.
Qed.

Lemma split_lines_app (cur : list ascii) (l rest : string) :
  no_LF l →
  split_lines cur (l +:+ rest) = split_lines (rev (chars l) ++ cur) rest.
Proof.
  unfold no_LF. revert cur. induction l as [|c l IH]; intros cur H; [done|].
  rewrite chars_cons in H. apply Forall_cons in H as [Hc H].
  rewrite sapp_cons, split_lines_push, IH by done.
  f_equal. simpl. by rewrite <- List.app_assoc.
Qed.

Lemma split_lines_terminator (cur : list ascii) (rest : string) :
  split_lines cur (lineterminator +:+ rest)
  = string_of_list_ascii (rev cur) :: split_lines [] rest.
Proof.
  unfold lineterminator. rewrite !sapp_cons, sapp_nil_l.
  rewrite split_lines_push by done. simpl. done.
Qed.

Lemma lines_writerow (fs : list string) (rest : string) :
  no_LF (record_text fs) →
  lines (writerow fs +:+ rest) = record_text fs :: lines rest.
Proof.
  intros H. unfold lines, writerow.
  rewrite sapp_assoc, split_lines_app, split_lines_terminator by done.
  by rewrite List.app_nil_r, rev_involutive, of_list_chars.
Qed.

Lemma lines_file_text (recs : list (list string)) :
  Forall (λ fs, no_LF (record_text fs)) recs →
  lines (file_text recs) = record_text <$> recs.
Proof.
  induction 1 as [|fs recs Hfs _ IH]; [done|].
  rewrite fmap_cons, <- IH. by apply lines_writerow.
Qed.

Lemma count_LF_app (a b : string) : count_LF (a +:+ b) = (count_LF a + count_LF b)%nat.
Proof. unfold count_LF. by rewrite chars_app, filter_app, length_app. Qed.

Lemma count_LF_no_LF (s : string) : no_LF s → count_LF s = 0%nat.
Proof.
  unfold no_LF, count_LF. induction 1 as [|c l Hc _ IH]; [done|].
  by rewrite filter_cons_False.
Qed.

Lemma count_LF_file_text (recs : list (list string)) :
  Forall (λ fs, no_LF (record_text fs)) recs →
  count_LF (file_text recs) = length recs.
Proof.
  induction 1 as [|fs recs Hfs _ IH]; [done|].
  simpl. unfold writerow. rewrite !count_LF_app, IH, count_LF_no_LF by done.
  done.
Qed.

(** *** The characters of a record *)

Lemma plain_no_LF (s : string) : plain s → no_LF s.
Proof.
  intros H. eapply Forall_impl; [exact H|]. intros c Hc ->. by vm_compute in Hc.
Qed.

Lemma join_chars (P : ascii → Prop) (sep : string) (fs : list string) :
  Forall P (chars sep) → Forall (λ f, Forall P (chars f)) fs →
  Forall P (chars (join sep fs)).
Proof.
  intros Hsep. induction 1 as [|f fs Hf Hfs IH]; [constructor|].
  destruct fs as [|g fs]; [done|].
  rewrite join_cons2, !chars_app. by rewrite !Forall_app.
Qed.

Lemma record_text_no_LF (fs : list string) : Forall plain fs → no_LF (record_text fs).
Proof.
  intros H. destruct (decide (fs = [""])) as [->|Hne].
  - rewrite record_text_single_empty. by repeat constructor.
  - rewrite record_text_plain by done. apply join_chars.
    + by repeat constructor.
    + eapply Forall_impl; [exact H|]. apply plain_no_LF.
Qed.

End CsvFacts.

(** ** Computations that only draw *)

Section DrawFacts.
Context {R : RandomSource}.
Implicit Types w : world R.

Lemma set_rng_id w : set_rng (w_rng w) w = w.
Proof. by destruct w. Qed.

Lemma set_rng_set_rng (s s' : rng R) w : set_rng s (set_rng s' w) = set_rng s w.
Proof. done. Qed.

Lemma draws_ret {A} (a : A) (P : A → Prop) : P a → draws (ret (R:=R) a) P.
Proof. intros H w. exists a, (w_rng w). by rewrite set_rng_id. Qed.

Lemma draws_bind {A B} (m : M R A) (k : A → M R B) (P : A → Prop) (Q : B → Prop) :
  draws m P → (∀ a, P a → draws (k a) Q) → draws (bind m k) Q.
Proof.
  intros Hm Hk w. destruct (Hm w) as (a & s & E & Ha).
  destruct (Hk a Ha (set_rng s w)) as (b & s' & E' & Hb).
  exists b, s'. unfold bind. by rewrite E, E', set_rng_set_rng.
Qed.

Lemma draws_weaken {A} (m : M R A) (P Q : A → Prop) :
  draws m P → (∀ a, P a → Q a) → draws m Q.
Proof.
  intros Hm HPQ w. destruct (Hm w) as (a & s & E & Ha). exists a, s. auto.
Qed.

Lemma draws_random : draws (random (R:=R)) (λ k, (k < 2 ^ 53)%N).
Proof.
  intros w. unfold random. pose proof (rng_random_lt R (w_rng w)) as H.
  destruct (rng_random R (w_rng w)) as [k s]. by exists k, s.
Qed.

Lemma draws_gauss (mu sigma : Z) : draws (gauss (R:=R) mu sigma) (λ _, True).
Proof.
  intros w. unfold gauss.
  destruct (rng_gauss R mu sigma (w_rng w)) as [x s]. by exists x, s.
Qed.

Lemma draws_randbelow (n : N) : (0 < n)%N → draws (randbelow (R:=R) n) (λ k, (k < n)%N).
Proof.
  intros Hn w. unfold randbelow. pose proof (rng_below_lt R n (w_rng w) Hn) as H.
  destruct (rng_below R n (w_rng w)) as [k s]. by exists k, s.
Qed.

Lemma draws_randint (a b : Z) : a ≤ b → draws (randint (R:=R) a b) (λ z, a ≤ z ≤ b).
Proof.
  intros Hab. unfold randint.
  destruct (Z.ltb_spec 0 (b + 1 - a)) as [_|]; [|lia].
  eapply draws_bind; [apply draws_randbelow; lia|].
  intros k Hk. apply draws_ret. simpl in Hk. lia.
Qed.

Lemma draws_index {A} (xs : list A) (i : Z) :
  0 ≤ i < Z.of_nat (length xs) →
  draws (index (R:=R) xs i) (λ x, xs !! Z.to_nat i = Some x).
Proof.
  intros Hi. unfold index.
  destruct (Z.ltb_spec i 0) as [|_]; [lia|].
  destruct (Z.leb_spec 0 i) as [_|]; [|lia].
  destruct (Z.ltb_spec i (Z.of_nat (length xs))) as [_|]; [|lia]. simpl.
  destruct (xs !! Z.to_nat i) as [x|] eqn:E.
  - by apply draws_ret.
  - apply lookup_ge_None in E. lia.
Qed.

Lemma draws_pick {A} (xs : list A) :
  xs ≠ [] →
  draws (bind (randbelow (R:=R) (N.of_nat (length xs))) (λ i, index xs (Z.of_N i)))
        (λ x, x ∈ xs).
Proof.
  intros Hne. assert (0 < length xs)%nat by (destruct xs; [done|simpl; lia]).
  eapply draws_bind; [apply draws_randbelow; lia|].
  intros k Hk. simpl in Hk. eapply draws_weaken; [apply draws_index; lia|].
  intros x Hx. simpl in Hx. by eapply list_elem_of_lookup_2.
Qed.

Lemma draws_choice {A} (seq : list A) :
  seq ≠ [] → draws (choice (R:=R) seq) (λ x, x ∈ seq).
Proof.
  intros Hne. unfold choice. destruct seq as [|x seq]; [done|].
  by apply draws_pick.
Qed.

Lemma draws_for_list {A B} (xs : list A) (f : A → M R B) (Q : A → B → Prop) :
  (∀ x, x ∈ xs → draws (f x) (Q x)) →
  draws (for_list xs f) (λ ys, Forall2 Q xs ys).
Proof.
  induction xs as [|x xs IH]; intros Hf.
  - apply draws_ret. constructor.
  - simpl. eapply draws_bind; [apply Hf; left|].
    intros y Hy. eapply draws_bind; [apply IH; intros; apply Hf; by right|].
    intros ys Hys. apply draws_ret. by constructor.
Qed.

Lemma Forall2_right {A B} (P : B → Prop) (xs : list A) (ys : list B) :
  Forall2 (λ _ y, P y) xs ys → Forall P ys.
Proof. induction 1; by constructor. Qed.

Lemma length_range (n : Z) : length (range n) = Z.to_nat n.
Proof. unfold range. apply length_seqZ. Qed.

Lemma elem_of_range (n i : Z) : i ∈ range n ↔ 0 ≤ i < n.
Proof. unfold range. rewrite elem_of_seqZ. lia. Qed.

Lemma draws_choices {A} (population : list A) (k : Z) :
  population ≠ [] →
  draws (choices (R:=R) population k)
        (λ ys, length ys = Z.to_nat k ∧ Forall (λ y, y ∈ population) ys).
Proof.
  intros Hne. unfold choices.
  eapply draws_weaken.
  - apply (draws_for_list _ _ (λ _ y, y ∈ population)).
    intros _ _. by apply draws_pick.
  - intros ys H. split.
    + by rewrite <- (Forall2_length _ _ _ H), length_range.
    + by eapply Forall2_right.
Qed.

End DrawFacts.

(** ** The generators of fields, pools and rows *)

Section GenFacts.
Context {R : RandomSource}.
Import PyStr PyFloat Shape.

Lemma alphabet_chars : Forall (λ c, is_alnum_space c = true) (chars alphabet).
Proof.
  apply Forall_forall. intros c Hc. apply list_elem_of_In in Hc. revert c Hc.
  apply forallb_forall. by vm_compute.
Qed.

Lemma alphabet_nonempty : chars alphabet ≠ [].
Proof. done. Qed.

Lemma range_lookup (n : Z) (k : nat) (i : Z) :
  range n !! k = Some i ↔ i = Z.of_nat k ∧ Z.of_nat k < n.
Proof. unfold range. rewrite lookup_seqZ. lia. Qed.

Lemma draws_gen_numeric : draws (gen_numeric (R:=R)) numeric_field.
Proof.
  unfold gen_numeric. eapply draws_bind; [apply draws_random|].
  intros k _. destruct (random_lt k lit_0_05).
  - apply draws_ret. by left.
  - eapply draws_bind; [apply draws_gauss|].
    intros x _. apply draws_ret. right. by exists x.
Qed.

Lemma draws_gen_text : draws (gen_text (R:=R)) text_field.
Proof.
  unfold gen_text. eapply draws_bind; [apply draws_random|].
  intros k _. destruct (random_lt k lit_0_03).
  - apply draws_ret. by left.
  - eapply draws_bind; [by apply draws_randint|].
    intros len Hlen. simpl in Hlen.
    eapply draws_bind; [apply draws_choices, alphabet_nonempty|].
    intros cs [Hn Hcs]. apply draws_ret. right.
    rewrite <- length_chars, chars_of_list. split; [lia|].
    eapply Forall_impl; [exact Hcs|]. intros c Hc. simpl in Hc.
    by eapply (proj1 (Forall_forall _ _) alphabet_chars).
Qed.

Lemma pool_of_nonempty (i : Z) (pool : list string) : pool_of i pool → pool ≠ [].
Proof.
  intros (n & Hn & ->) E. apply fmap_nil_inv in E.
  assert (length (range n) = 0%nat) as H by by rewrite E.
  rewrite length_range in H. lia.
Qed.

Lemma draws_gen_categorical (categories : list (list string)) (i : Z) (pool : list string) :
  0 ≤ i → categories !! Z.to_nat i = Some pool → pool ≠ [] →
  draws (gen_categorical (R:=R) categories i) (categorical_field pool).
Proof.
  intros Hi Hpool Hne. unfold gen_categorical.
  eapply draws_bind; [apply draws_random|].
  intros k _. destruct (random_lt k lit_0_02).
  - apply draws_ret. by left.
  - eapply draws_bind.
    + apply draws_index. apply lookup_lt_Some in Hpool. lia.
    + intros pool' E. simpl in E. rewrite Hpool in E. injection E as <-.
      eapply draws_weaken; [by apply draws_choice|]. intros s Hs. by right.
Qed.

Lemma draws_gen_categories (num_cols : Z) :
  draws (gen_categories (R:=R) num_cols)
        (λ categories, Forall2 pool_of (range (categorical_cols num_cols)) categories).
Proof.
  unfold gen_categories. apply draws_for_list. intros i _.
  eapply draws_bind; [by apply draws_randint|].
  intros n Hn. apply draws_ret. by exists n.
Qed.

Lemma draws_gen_row (num_cols : Z) (categories : list (list string)) :
  Forall2 pool_of (range (categorical_cols num_cols)) categories →
  draws (gen_row (R:=R) num_cols categories) (row_of num_cols categories).
Proof.
  intros Hcat. unfold gen_row.
  eapply draws_bind;
    [apply (draws_for_list _ _ (λ _, numeric_field)); intros; apply draws_gen_numeric|].
  intros nums Hnums.
  eapply draws_bind.
  { apply (draws_for_list _ _
             (λ i s, ∃ pool, categories !! Z.to_nat i = Some pool ∧ categorical_field pool s)).
    intros i Hi. apply list_elem_of_lookup in Hi as [k Hk].
    destruct (Forall2_lookup_l _ _ _ _ _ Hcat Hk) as (pool & Hpool & Hof).
    apply range_lookup in Hk as [-> Hk]. rewrite Nat2Z.id.
    eapply draws_weaken.
    - apply (draws_gen_categorical _ _ pool); [lia|by rewrite Nat2Z.id|].
      by eapply pool_of_nonempty.
    - intros s Hs. by exists pool. }
  intros cats Hcats.
  eapply draws_bind;
    [apply (draws_for_list _ _ (λ _, text_field)); intros; apply draws_gen_text|].
  intros texts Htexts. apply draws_ret.
  exists nums, cats, texts. split_and!.
  - done.
  - by rewrite <- (Forall2_length _ _ _ Hnums), length_range.
  - by eapply Forall2_right.
  - apply Forall2_same_length_lookup_2.
    + by rewrite <- (Forall2_length _ _ _ Hcat), (Forall2_length _ _ _ Hcats).
    + intros k pool s Hpool Hs.
      destruct (Forall2_lookup_r _ _ _ _ _ Hcats Hs) as (i & Hi & pool' & Hpool' & Hf).
      apply range_lookup in Hi as [-> _]. rewrite Nat2Z.id in Hpool'. congruence.
  - by rewrite <- (Forall2_length _ _ _ Htexts), length_range.
  - by eapply Forall2_right.
Qed.

End GenFacts.

(** ** A whole run *)

Section RunFacts.
Context {R : RandomSource}.
Import PyStr Shape.
Implicit Types w : world R.

(** The body of the row loop: one row is drawn and written. *)
Lemma row_step (path : string) (num_cols : Z) (categories : list (list string)) w
    (content : string) :
  Forall2 pool_of (range (categorical_cols num_cols)) categories →
  w_files w !! path = Some content →
  ∃ row s,
    bind (gen_row num_cols categories) (λ row, writerow path row) w
    = (Ok tt, World s (<[path := content +:+ CsvWriter.writerow row]> (w_files w)) (w_locked w))
    ∧ row_of num_cols categories row.
Proof.
  intros Hcat Hfile.
  destruct (draws_gen_row num_cols categories Hcat w) as (row & s & E & Hrow).
  exists row, s. split; [|done].
  unfold bind. rewrite E. unfold writerow, write. simpl. by rewrite Hfile.
Qed.

Lemma rows_loop (path : string) (num_cols : Z) (categories : list (list string))
    (idxs : list Z) :
  Forall2 pool_of (range (categorical_cols num_cols)) categories →
  ∀ w content,
    w_files w !! path = Some content →
    ∃ data s,
      for_each idxs (λ _, bind (gen_row num_cols categories) (λ row, writerow path row)) w
      = (Ok tt, World s (<[path := content +:+ file_text data]> (w_files w)) (w_locked w))
      ∧ length data = length idxs
      ∧ Forall (row_of num_cols categories) data.
Proof.
  intros Hcat. induction idxs as [|i idxs IH]; intros w content Hfile.
  - exists [], (w_rng w). split; [|done]. simpl.
    rewrite sapp_nil_r, insert_id by done. by destruct w.
  - destruct (row_step path num_cols categories w content Hcat Hfile)
      as (row & s & E & Hrow).
    set (w1 := World s (<[path := content +:+ CsvWriter.writerow row]> (w_files w)) (w_locked w)).
    destruct (IH w1 (content +:+ CsvWriter.writerow row)) as (data & s' & E' & Hlen & Hdata).
    { apply lookup_insert_eq. }
    exists (row :: data), s'. split; [|split].
    + change (for_each (i :: idxs) ?body) with (bind (body i) (λ _, for_each idxs body)).
      unfold bind at 1. rewrite E. fold w1. rewrite E'. simpl.
      by rewrite insert_insert_eq, sapp_assoc.
    + simpl. by rewrite Hlen.
    + by constructor.
Qed.

Lemma bind_ok {A B} (m : M R A) (k : A → M R B) w (a : A) w' :
  m w = (Ok a, w') → bind m k w = k a w'.
Proof. intros E. unfold bind. by rewrite E. Qed.

Lemma bind_raise {A B} (m : M R A) (k : A → M R B) w (e : exn) w' :
  m w = (Raise e, w') → bind m k w = (Raise e, w').
Proof. intros E. unfold bind. by rewrite E. Qed.

Lemma open_w_locked (path : string) w :
  path ∈ w_locked w → open_w path w = (Raise OSError, w).
Proof. intros H. unfold open_w. by rewrite decide_True. Qed.

Lemma open_w_free (path : string) w :
  path ∉ w_locked w →
  open_w path w = (Ok tt, set_files (<[path := ""]> (w_files w)) w).
Proof. intros H. unfold open_w. by rewrite decide_False. Qed.

Lemma writerow_opened (path : string) (row : list string) w (content : string) :
  w_files w !! path = Some content →
  writerow path row w
  = (Ok tt, set_files (<[path := content +:+ CsvWriter.writerow row]> (w_files w)) w).
Proof. intros H. unfold writerow, write. by rewrite H. Qed.

(** What [generate_test_csv] does: it draws the pools, then either fails
    to open the file, or writes the header and [rows] rows drawn against
    those pools. *)
Lemma generate_test_csv_run (path : string) (rows num_cols : Z) w :
  ∃ categories s1,
    gen_categories num_cols w = (Ok categories, set_rng s1 w)
    ∧ Forall2 pool_of (range (categorical_cols num_cols)) categories
    ∧ if decide (path ∈ w_locked w)
      then generate_test_csv path rows num_cols w = (Raise OSError, set_rng s1 w)
      else ∃ data s2,
        generate_test_csv path rows num_cols w
        = (Ok tt, World s2 (<[path := file_text (headers num_cols :: data)]> (w_files w))
                    (w_locked w))
        ∧ length data = Z.to_nat rows
        ∧ Forall (row_of num_cols categories) data.
Proof.
  destruct (draws_gen_categories num_cols w) as (categories & s1 & E & Hcat).
  exists categories, s1. split; [done|]. split; [done|].
  unfold generate_test_csv. rewrite (bind_ok _ _ _ _ _ E).
  destruct (decide (path ∈ w_locked w)) as [Hl|Hl].
  { by rewrite (bind_raise _ _ _ _ _ (open_w_locked path (set_rng s1 w) Hl)). }
  rewrite (bind_ok _ _ _ _ _ (open_w_free path (set_rng s1 w) Hl)).
  set (w1 := set_files _ (set_rng s1 w)).
  assert (w_files w1 !! path = Some "") as H1 by apply lookup_insert_eq.
  rewrite (bind_ok _ _ _ _ _ (writerow_opened path (headers num_cols) w1 "" H1)).
  rewrite sapp_nil_l. set (w2 := set_files _ w1).
  destruct (rows_loop path num_cols categories (range rows) Hcat w2
              (CsvWriter.writerow (headers num_cols))) as (data & s2 & E2 & Hlen & Hdata).
  { apply lookup_insert_eq. }
  exists data, s2. rewrite E2. split; [|split].
  - subst w2 w1. simpl. by rewrite !insert_insert_eq.
  - by rewrite Hlen, length_range.
  - done.
Qed.

End RunFacts.

(** ** The characters of the fields, the sizes of the records *)

Section FieldFacts.
Import PyStr PyFloat CsvWriter Shape.

Lemma special_inv (c : ascii) :
  special c = true → c = comma ∨ c = quote ∨ c = CR ∨ c = LF.
Proof.
  unfold special.
  destruct (Ascii.eqb_spec c comma); [auto|].
  destruct (Ascii.eqb_spec c quote); [auto|].
  destruct (Ascii.eqb_spec c CR); [auto|].
  destruct (Ascii.eqb_spec c LF); [auto|]. done.
Qed.

Lemma not_special (c : ascii) :
  c ≠ comma → c ≠ quote → c ≠ CR → c ≠ LF → special c = false.
Proof.
  intros Hcomma Hquote HCR HLF. destruct (special c) eqn:E; [|done].
  apply special_inv in E as [?|[?|[?|?]]]; done.
Qed.

Lemma digit_plain (c : ascii) : is_digit c = true → special c = false.
Proof. intros H. apply not_special; intros ->; by vm_compute in H. Qed.

Lemma alnum_space_plain (c : ascii) : is_alnum_space c = true → special c = false.
Proof. intros H. apply not_special; intros ->; by vm_compute in H. Qed.

Lemma plain_empty : plain "".
Proof. constructor. Qed.

Lemma plain_app (a b : string) : plain a → plain b → plain (a +:+ b).
Proof. unfold plain. rewrite chars_app, Forall_app. done. Qed.

Lemma plain_str (i : Z) : plain (str i).
Proof.
  eapply Forall_impl; [apply str_chars|].
  intros c [H| ->]; [by apply digit_plain|done].
Qed.

Lemma plain_format_2f (x : float) : plain (format_2f x).
Proof.
  eapply Forall_impl; [apply format_2f_chars|].
  intros c [H|[->| ->]]; [by apply digit_plain|done|done].
Qed.

Lemma plain_label (i j : Z) : plain (label i j).
Proof.
  unfold label. repeat apply plain_app; try apply plain_str; by repeat constructor.
Qed.

Lemma plain_headers (num_cols : Z) : Forall plain (headers num_cols).
Proof.
  unfold headers. rewrite !Forall_app, !Forall_fmap. split_and!;
    apply Forall_true; intros i; apply plain_app; try apply plain_str;
    by repeat constructor.
Qed.

Lemma plain_numeric_field (s : string) : numeric_field s → plain s.
Proof. intros [->|[x ->]]; [apply plain_empty|apply plain_format_2f]. Qed.

Lemma plain_text_field (s : string) : text_field s → plain s.
Proof.
  intros [->|[_ H]]; [apply plain_empty|].
  eapply Forall_impl; [exact H|]. apply alnum_space_plain.
Qed.

Lemma plain_categorical_field (i : Z) (pool : list string) (s : string) :
  pool_of i pool → categorical_field pool s → plain s.
Proof.
  intros (n & _ & ->) [->|H]; [apply plain_empty|].
  apply list_elem_of_fmap in H as (j & -> & _). apply plain_label.
Qed.

Lemma plain_row (num_cols : Z) (categories : list (list string)) (row : list string) :
  Forall2 pool_of (range (categorical_cols num_cols)) categories →
  row_of num_cols categories row → Forall plain row.
Proof.
  intros Hcat (nums & cats & texts & -> & _ & Hn & Hc & _ & Ht).
  rewrite !Forall_app. split_and!.
  - eapply Forall_impl; [exact Hn|]. apply plain_numeric_field.
  - apply Forall_lookup. intros k s Hs.
    destruct (Forall2_lookup_r _ _ _ _ _ Hc Hs) as (pool & Hpool & Hf).
    destruct (Forall2_lookup_r _ _ _ _ _ Hcat Hpool) as (i & _ & Hof).
    by eapply plain_categorical_field.
  - eapply Forall_impl; [exact Ht|]. apply plain_text_field.
Qed.

(** *** Sizes *)

Lemma cols_partition (num_cols : Z) :
  numeric_cols num_cols + categorical_cols num_cols + text_cols num_cols = num_cols.
Proof. unfold text_cols. lia. Qed.

Lemma cols_nonneg (num_cols : Z) :
  0 ≤ num_cols →
  0 ≤ numeric_cols num_cols ∧ 0 ≤ categorical_cols num_cols ∧ 0 ≤ text_cols num_cols.
Proof.
  intros H. unfold text_cols, categorical_cols, numeric_cols.
  pose proof (Z.div_mod num_cols 3 ltac:(done)).
  pose proof (Z.mod_pos_bound num_cols 3 ltac:(done)).
  assert (0 ≤ num_cols `div` 3) by (apply Z.div_pos; lia). lia.
Qed.

Lemma length_headers (num_cols : Z) :
  length (headers num_cols)
  = (Z.to_nat (numeric_cols num_cols) + Z.to_nat (categorical_cols num_cols)
     + Z.to_nat (text_cols num_cols))%nat.
Proof. unfold headers. rewrite !length_app, !length_fmap, !length_range. lia. Qed.

Lemma length_row (num_cols : Z) (categories : list (list string)) (row : list string) :
  Forall2 pool_of (range (categorical_cols num_cols)) categories →
  row_of num_cols categories row →
  length row
  = (Z.to_nat (numeric_cols num_cols) + Z.to_nat (categorical_cols num_cols)
     + Z.to_nat (text_cols num_cols))%nat.
Proof.
  intros Hcat (nums & cats & texts & -> & Hn & _ & Hc & Ht & _).
  rewrite !length_app, Hn, Ht.
  rewrite <- (Forall2_length _ _ _ Hc), <- (Forall2_length _ _ _ Hcat), length_range. lia.
Qed.

Lemma cols_total (num_cols : Z) :
  0 ≤ num_cols →
  (Z.to_nat (numeric_cols num_cols) + Z.to_nat (categorical_cols num_cols)
   + Z.to_nat (text_cols num_cols))%nat = Z.to_nat num_cols.
Proof.
  intros H. destruct (cols_nonneg num_cols H) as (? & ? & ?).
  pose proof (cols_partition num_cols). lia.
Qed.

End FieldFacts.

(** ** Runs that complete, and the file they leave *)

Section FileFacts.
Context {R : RandomSource}.
Import PyStr CsvWriter CsvText Shape.
Implicit Types w : world R.

(** A run that completes opened its file, and leaves the header and
    [rows] rows drawn against the pools of the plan. *)
Lemma run_ok_inv (path : string) (rows num_cols : Z) w w' :
  generate_test_csv path rows num_cols w = (Ok tt, w') →
  (path ∉ w_locked w)
  ∧ ∃ categories data s1 s2,
      gen_categories num_cols w = (Ok categories, set_rng s1 w)
      ∧ Forall2 pool_of (range (categorical_cols num_cols)) categories
      ∧ w' = World s2 (<[path := file_text (headers num_cols :: data)]> (w_files w))
               (w_locked w)
      ∧ length data = Z.to_nat rows
      ∧ Forall (row_of num_cols categories) data.
Proof.
  intros Hrun.
  destruct (generate_test_csv_run path rows num_cols w) as (categories & s1 & E & Hcat & H).
  destruct (decide (path ∈ w_locked w)) as [Hl|Hl]; [congruence|].
  destruct H as (data & s2 & E2 & Hlen & Hdata). split; [done|].
  exists categories, data, s1, s2. split_and!; try done. congruence.
Qed.

(** A run completes exactly when its file can be opened. *)
Lemma run_completes (path : string) (rows num_cols : Z) w :
  path ∉ w_locked w ↔ (generate_test_csv path rows num_cols w).1 = Ok tt.
Proof.
  destruct (generate_test_csv_run path rows num_cols w) as (categories & s1 & E & Hcat & H).
  destruct (decide (path ∈ w_locked w)) as [Hl|Hl].
  - rewrite H. simpl. split; [done|discriminate].
  - destruct H as (data & s2 & -> & _). done.
Qed.

Lemma lines_records (recs : list (list string)) :
  Forall (Forall plain) recs →
  lines (file_text recs) = record_text <$> recs
  ∧ count_LF (file_text recs) = length recs.
Proof.
  intros H.
  assert (Forall (λ fs, no_LF (record_text fs)) recs) as H'.
  { eapply Forall_impl; [exact H|]. apply record_text_no_LF. }
  split; [by apply lines_file_text|by apply count_LF_file_text].
Qed.

(** Records of plain fields, none of them empty or a single empty field,
    are read back from the file as they were written. *)
Lemma records_read_back (recs : list (list string)) :
  Forall (Forall plain) recs →
  Forall (λ r, r ≠ [] ∧ r ≠ [""]) recs →
  fields <$> lines (file_text recs) = recs.
Proof.
  intros Hp Hne. rewrite (proj1 (lines_records recs Hp)).
  rewrite <- list_fmap_compose. rewrite <- (list_fmap_id recs) at 2.
  apply Forall_fmap_ext_1.
  apply Forall_lookup. intros k r Hr. simpl.
  pose proof (proj1 (Forall_lookup _ _) Hp k r Hr) as Hpr.
  pose proof (proj1 (Forall_lookup _ _) Hne k r Hr) as [Hr1 Hr2].
  rewrite record_text_plain by done. apply fields_join; [done|].
  eapply Forall_impl; [exact Hpr|]. apply plain_no_comma.
Qed.

Lemma plain_records (num_cols : Z) (categories : list (list string))
    (data : list (list string)) :
  Forall2 pool_of (range (categorical_cols num_cols)) categories →
  Forall (row_of num_cols categories) data →
  Forall (Forall plain) (headers num_cols :: data).
Proof.
  intros Hcat Hdata. constructor; [apply plain_headers|].
  eapply Forall_impl; [exact Hdata|]. intros row. by apply plain_row.
Qed.

End FileFacts.

(** ** Computations that touch the random generator only *)

Section PureDrawFacts.
Context {R : RandomSource}.
Implicit Types w : world R.

Lemma draw_of_eq {A} (m : M R A) (s : rng R) :
  draw_of m s = ((m (World s ∅ ∅)).1, w_rng (m (World s ∅ ∅)).2).
Proof. unfold draw_of. by destruct (m (World s ∅ ∅)). Qed.

(** A computation that returns the world with a new generator state, chosen
    from the old state alone, is a pure draw. *)
Lemma pure_draw_intro {A} (m : M R A) (f : rng R → result A * rng R) :
  (∀ w, m w = ((f (w_rng w)).1, set_rng (f (w_rng w)).2 w)) → pure_draw m.
Proof.
  intros H w. rewrite draw_of_eq, (H (World (w_rng w) ∅ ∅)). simpl. apply H.
Qed.

Lemma pure_draw_run {A} (m : M R A) w (r : result A) (s : rng R) :
  pure_draw m → draw_of m (w_rng w) = (r, s) → m w = (r, set_rng s w).
Proof. intros H E. by rewrite (H w), E. Qed.

Lemma pure_draw_ret {A} (a : A) : pure_draw (ret (R:=R) a).
Proof. apply (pure_draw_intro _ (λ s, (Ok a, s))). intros w. by destruct w. Qed.

Lemma pure_draw_raise {A} (e : exn) : pure_draw (raise (R:=R) (A:=A) e).
Proof. apply (pure_draw_intro _ (λ s, (Raise e, s))). intros w. by destruct w. Qed.

Lemma pure_draw_bind {A B} (m : M R A) (k : A → M R B) :
  pure_draw m → (∀ a, pure_draw (k a)) → pure_draw (bind m k).
Proof.
  intros Hm Hk.
  apply (pure_draw_intro _
           (λ s, match draw_of m s with
                 | (Ok a, s') => draw_of (k a) s'
                 | (Raise e, s') => (Raise e, s')
                 end)).
  intros w. unfold bind. rewrite (Hm w).
  destruct (draw_of m (w_rng w)) as [[a|e] s']; simpl; [|done].
  by rewrite (Hk a (set_rng s' w)).
Qed.

Lemma pure_draw_random : pure_draw (random (R:=R)).
Proof.
  apply (pure_draw_intro _ (λ s, (Ok (rng_random R s).1, (rng_random R s).2))).
  intros w. unfold random. by destruct (rng_random R (w_rng w)).
Qed.

Lemma pure_draw_gauss (mu sigma : Z) : pure_draw (gauss (R:=R) mu sigma).
Proof.
  apply (pure_draw_intro _
           (λ s, (Ok (rng_gauss R mu sigma s).1, (rng_gauss R mu sigma s).2))).
  intros w. unfold gauss. by destruct (rng_gauss R mu sigma (w_rng w)).
Qed.

Lemma pure_draw_randbelow (n : N) : pure_draw (randbelow (R:=R) n).
Proof.
  apply (pure_draw_intro _ (λ s, (Ok (rng_below R n s).1, (rng_below R n s).2))).
  intros w. unfold randbelow. by destruct (rng_below R n (w_rng w)).
Qed.

Lemma pure_draw_index {A} (xs : list A) (i : Z) : pure_draw (index (R:=R) xs i).
Proof.
  unfold index. destruct (_ && _); [|apply pure_draw_raise].
  destruct (xs !! _); [apply pure_draw_ret|apply pure_draw_raise].
Qed.

Lemma pure_draw_randint (a b : Z) : pure_draw (randint (R:=R) a b).
Proof.
  unfold randint. destruct (0 <? b + 1 - a); [|apply pure_draw_raise].
  apply pure_draw_bind; [apply pure_draw_randbelow|]. intros k. apply pure_draw_ret.
Qed.

Lemma pure_draw_choice {A} (seq : list A) : pure_draw (choice (R:=R) seq).
Proof.
  unfold choice. destruct seq; [apply pure_draw_raise|].
  apply pure_draw_bind; [apply pure_draw_randbelow|]. intros k. apply pure_draw_index.
Qed.

Lemma pure_draw_for_list {A B} (xs : list A) (f : A → M R B) :
  (∀ x, pure_draw (f x)) → pure_draw (for_list xs f).
Proof.
  intros Hf. induction xs as [|x xs IH]; [apply pure_draw_ret|].
  simpl. apply pure_draw_bind; [apply Hf|]. intros y.
  apply pure_draw_bind; [apply IH|]. intros ys. apply pure_draw_ret.
Qed.

Lemma pure_draw_choices {A} (population : list A) (k : Z) :
  pure_draw (choices (R:=R) population k).
Proof.
  unfold choices. apply pure_draw_for_list. intros _.
  apply pure_draw_bind; [apply pure_draw_randbelow|]. intros i. apply pure_draw_index.
Qed.

Lemma pure_draw_gen_numeric : pure_draw (gen_numeric (R:=R)).
Proof.
  unfold gen_numeric. apply pure_draw_bind; [apply pure_draw_random|]. intros k.
  destruct (PyFloat.random_lt _ _); [apply pure_draw_ret|].
  apply pure_draw_bind; [apply pure_draw_gauss|]. intros x. apply pure_draw_ret.
Qed.

Lemma pure_draw_gen_categorical (categories : list (list string)) (i : Z) :
  pure_draw (gen_categorical (R:=R) categories i).
Proof.
  unfold gen_categorical. apply pure_draw_bind; [apply pure_draw_random|]. intros k.
  destruct (PyFloat.random_lt _ _); [apply pure_draw_ret|].
  apply pure_draw_bind; [apply pure_draw_index|]. intros pool. apply pure_draw_choice.
Qed.

Lemma pure_draw_gen_text : pure_draw (gen_text (R:=R)).
Proof.
  unfold gen_text. apply pure_draw_bind; [apply pure_draw_random|]. intros k.
  destruct (PyFloat.random_lt _ _); [apply pure_draw_ret|].
  apply pure_draw_bind; [apply pure_draw_randint|]. intros len.
  apply pure_draw_bind; [apply pure_draw_choices|]. intros cs. apply pure_draw_ret.
Qed.

Lemma pure_draw_gen_row (num_cols : Z) (categories : list (list string)) :
  pure_draw (gen_row (R:=R) num_cols categories).
Proof.
  unfold gen_row.
  apply pure_draw_bind; [apply pure_draw_for_list; intros; apply pure_draw_gen_numeric|].
  intros nums.
  apply pure_draw_bind; [apply pure_draw_for_list; intros; apply pure_draw_gen_categorical|].
  intros cats.
  apply pure_draw_bind; [apply pure_draw_for_list; intros; apply pure_draw_gen_text|].
  intros texts. apply pure_draw_ret.
Qed.

Lemma pure_draw_gen_categories (num_cols : Z) : pure_draw (gen_categories (R:=R) num_cols).
Proof.
  unfold gen_categories. apply pure_draw_for_list. intros i.
  apply pure_draw_bind; [apply pure_draw_randint|]. intros n. apply pure_draw_ret.
Qed.

End PureDrawFacts.

(** ** The row loop, against drawing all rows first *)

Section BatchFacts.
Context {R : RandomSource}.
Import Shape.
Implicit Types w : world R.

Lemma draw_of_ret {A} (a : A) (s : rng R) : draw_of (ret (R:=R) a) s = (Ok a, s).
Proof. done. Qed.

Lemma draw_of_bind {A B} (m : M R A) (k : A → M R B) (s : rng R) :
  pure_draw m →
  draw_of (bind m k) s
  = match draw_of m s with
    | (Ok a, s') => draw_of (k a) s'
    | (Raise e, s') => (Raise e, s')
    end.
Proof.
  intros Hm. rewrite (draw_of_eq (bind m k)). unfold bind.
  rewrite (Hm (World s ∅ ∅)). simpl.
  destruct (draw_of m s) as [[a|e] s']; simpl; [|done].
  by rewrite draw_of_eq.
Qed.

(** From a state, a computation that [draws] returns a value. *)
Lemma draws_draw_of {A} (m : M R A) (P : A → Prop) (s : rng R) :
  draws m P → ∃ a s', draw_of m s = (Ok a, s') ∧ P a.
Proof.
  intros H. destruct (H (World s ∅ ∅)) as (a & s' & E & Ha).
  exists a, s'. rewrite draw_of_eq, E. done.
Qed.

Lemma draw_of_for_list_cons {A B} (f : A → M R B) (x : A) (xs : list A)
    (s s' : rng R) (out : list B) :
  (∀ x, pure_draw (f x)) →
  draw_of (for_list (x :: xs) f) s = (Ok out, s') →
  ∃ y ys s1,
    draw_of (f x) s = (Ok y, s1) ∧ draw_of (for_list xs f) s1 = (Ok ys, s')
    ∧ out = y :: ys.
Proof.
  intros Hf E. simpl in E. rewrite draw_of_bind in E by apply Hf.
  destruct (draw_of (f x) s) as [[y|e] s1] eqn:Ey; [|done].
  rewrite draw_of_bind in E by by apply pure_draw_for_list.
  destruct (draw_of (for_list xs f) s1) as [[ys|e] s2] eqn:Eys; [|done].
  rewrite draw_of_ret in E. injection E as <- <-.
  exists y, ys, s1. split_and!; done.
Qed.

Lemma draw_of_for_list_app {A B} (f : A → M R B) (xs ys : list A)
    (s s1 s2 : rng R) (a b : list B) :
  (∀ x, pure_draw (f x)) →
  draw_of (for_list xs f) s = (Ok a, s1) →
  draw_of (for_list ys f) s1 = (Ok b, s2) →
  draw_of (for_list (xs ++ ys) f) s = (Ok (a ++ b), s2).
Proof.
  intros Hf. revert s a. induction xs as [|x xs IH]; intros s a Ha Hb.
  - change (for_list [] f) with (ret (R:=R) (@nil B)) in Ha.
    rewrite draw_of_ret in Ha. injection Ha as <- <-. done.
  - apply draw_of_for_list_cons in Ha as (y & a' & s' & Hy & Ha' & ->); [|done].
    change (for_list ((x :: xs) ++ ys) f)
      with (bind (f x) (λ y, bind (for_list (xs ++ ys) f) (λ l, ret (y :: l)))).
    rewrite draw_of_bind, Hy by apply Hf.
    rewrite draw_of_bind by by apply pure_draw_for_list.
    by rewrite (IH s' a' Ha' Hb).
Qed.

(** Drawing and writing row after row leaves the file that drawing all the
    rows first and writing them afterwards would leave. *)
Lemma loop_writes (path : string) (f : Z → M R (list string)) (idxs : list Z) :
  (∀ i, pure_draw (f i)) →
  ∀ w content data s,
    w_files w !! path = Some content →
    draw_of (for_list idxs f) (w_rng w) = (Ok data, s) →
    for_each idxs (λ i, bind (f i) (λ row, writerow path row)) w
    = (Ok tt, World s (<[path := content +:+ file_text data]> (w_files w)) (w_locked w)).
Proof.
  intros Hf. induction idxs as [|i idxs IH]; intros w content data s Hfile E.
  - change (for_list [] f) with (ret (R:=R) (@nil (list string))) in E.
    rewrite draw_of_ret in E. injection E as <- <-. simpl.
    rewrite sapp_nil_r, insert_id by done. by destruct w.
  - apply draw_of_for_list_cons in E as (row & rows & s1 & Hrow & Hrows & ->); [|done].
    change (for_each (i :: idxs) ?body) with (bind (body i) (λ _, for_each idxs body)).
    pose proof (pure_draw_run _ w _ _ (Hf i) Hrow) as Hi.
    assert (bind (f i) (λ row, writerow path row) w
            = (Ok tt, set_files (<[path := content +:+ CsvWriter.writerow row]> (w_files w))
                        (set_rng s1 w))) as Hstep.
    { rewrite (bind_ok _ _ _ _ _ Hi).
      exact (writerow_opened path row (set_rng s1 w) content Hfile). }
    rewrite (bind_ok _ _ _ _ _ Hstep).
    rewrite (IH _ (content +:+ CsvWriter.writerow row) rows s);
      [|apply lookup_insert_eq|done].
    simpl. by rewrite insert_insert_eq, sapp_assoc.
Qed.

(** The file of a run, from the draws of the plan and of the rows. *)
Lemma generate_batch (path : string) (rows num_cols : Z) w
    (categories : list (list string)) (s1 : rng R) (data : list (list string))
    (s2 : rng R) :
  path ∉ w_locked w →
  draw_of (gen_categories num_cols) (w_rng w) = (Ok categories, s1) →
  draw_of (for_list (range rows) (λ _, gen_row num_cols categories)) s1 = (Ok data, s2) →
  generate_test_csv path rows num_cols w
  = (Ok tt, World s2 (<[path := file_text (headers num_cols :: data)]> (w_files w))
              (w_locked w)).
Proof.
  intros Hl Hcat Hdata. unfold generate_test_csv.
  rewrite (bind_ok _ _ _ _ _
             (pure_draw_run _ w _ _ (pure_draw_gen_categories num_cols) Hcat)).
  rewrite (bind_ok _ _ _ _ _ (open_w_free path (set_rng s1 w) Hl)).
  set (w1 := set_files _ (set_rng s1 w)).
  assert (w_files w1 !! path = Some "") as H1 by apply lookup_insert_eq.
  rewrite (bind_ok _ _ _ _ _ (writerow_opened path (headers num_cols) w1 "" H1)).
  rewrite sapp_nil_l. set (w2 := set_files _ w1).
  rewrite (loop_writes path (λ _, gen_row num_cols categories) (range rows)
             (λ _, pure_draw_gen_row num_cols categories) w2
             (CsvWriter.writerow (headers num_cols)) data s2);
    [|apply lookup_insert_eq|done].
  subst w2 w1. simpl. by rewrite !insert_insert_eq.
Qed.

(** The draws of a run never fail: the plan gives pools, the rows are rows
    against these pools. *)
Lemma plan_draws (num_cols : Z) (s : rng R) :
  ∃ categories s1,
    draw_of (gen_categories num_cols) s = (Ok categories, s1)
    ∧ Forall2 pool_of (range (categorical_cols num_cols)) categories.
Proof. apply draws_draw_of, draws_gen_categories. Qed.

Lemma rows_draws (num_cols : Z) (categories : list (list string)) (idxs : list Z)
    (s : rng R) :
  Forall2 pool_of (range (categorical_cols num_cols)) categories →
  ∃ data s',
    draw_of (for_list idxs (λ _, gen_row num_cols categories)) s = (Ok data, s')
    ∧ length data = length idxs
    ∧ Forall (row_of num_cols categories) data.
Proof.
  intros Hcat.
  destruct (draws_draw_of (for_list idxs (λ _, gen_row (R:=R) num_cols categories))
              (λ ys, Forall2 (λ _, row_of num_cols categories) idxs ys) s)
    as (data & s' & E & H).
  { apply draws_for_list. intros i _. by apply draws_gen_row. }
  exists data, s'. split_and!; [done| |by eapply Forall2_right].
  symmetry. by eapply Forall2_length.
Qed.

Lemma file_text_app (a b : list (list string)) :
  file_text (a ++ b) = file_text a +:+ file_text b.
Proof.
  induction a as [|r a IH]; [done|]. simpl. by rewrite IH, sapp_assoc.
Qed.

End BatchFacts.

(** ** The generators against the fields of the specification *)

Section FieldDrawFacts.
Context {R : RandomSource}.
Import PyStr PyFloat Shape.

Lemma draw_of_random (s : rng R) :
  draw_of random s = (Ok (rng_random R s).1, (rng_random R s).2).
Proof. unfold draw_of, random. simpl. by destruct (rng_random R s). Qed.

Lemma draw_of_gauss (mu sigma : Z) (s : rng R) :
  draw_of (gauss mu sigma) s = (Ok (rng_gauss R mu sigma s).1, (rng_gauss R mu sigma s).2).
Proof. unfold draw_of, gauss. simpl. by destruct (rng_gauss R mu sigma s). Qed.

Lemma draw_of_randbelow (n : N) (s : rng R) :
  draw_of (randbelow n) s = (Ok (rng_below R n s).1, (rng_below R n s).2).
Proof. unfold draw_of, randbelow. simpl. by destruct (rng_below R n s). Qed.

(** The numeric generator is the numeric field of the specification. *)
Lemma draw_of_gen_numeric (s : rng R) :
  draw_of gen_numeric s = (Ok (numeric_draw s).1, (numeric_draw s).2).
Proof.
  unfold gen_numeric, numeric_draw.
  rewrite draw_of_bind, draw_of_random by apply pure_draw_random.
  destruct (rng_random R s) as [k s1]. simpl.
  destruct (random_lt k lit_0_05); [done|].
  rewrite draw_of_bind, draw_of_gauss by apply pure_draw_gauss.
  by destruct (rng_gauss R 100 50 s1) as [x s2].
Qed.

(** Running a computation once per index is [draws_n] of its draw. *)
Lemma draw_of_repeat {A B} (m : M R B) (draw : rng R → B * rng R) (idxs : list A)
    (s : rng R) :
  pure_draw m →
  (∀ s, draw_of m s = (Ok (draw s).1, (draw s).2)) →
  draw_of (for_list idxs (λ _, m)) s
  = (Ok (draws_n draw (length idxs) s).1, (draws_n draw (length idxs) s).2).
Proof.
  intros Hm Hdraw. revert s. induction idxs as [|i idxs IH]; intros s; [done|].
  change (for_list (i :: idxs) (λ _, m))
    with (bind m (λ y, bind (for_list idxs (λ _, m)) (λ ys, ret (y :: ys)))).
  rewrite draw_of_bind, Hdraw by done.
  rewrite draw_of_bind by (apply pure_draw_for_list; done).
  rewrite IH. simpl. destruct (draw s) as [a s1]. simpl.
  by destruct (draws_n draw (length idxs) s1) as [l s2].
Qed.

Lemma draws_n_length {A} (draw : rng R → A * rng R) (n : nat) (s : rng R) :
  length (draws_n draw n s).1 = n.
Proof.
  revert s. induction n as [|n IH]; intros s; [done|]. simpl.
  destruct (draw s) as [a s1]. specialize (IH s1).
  destruct (draws_n draw n s1) as [l s2]. simpl in *. by rewrite IH.
Qed.

(** The value at position [j] of [draws_n] is the draw from the state that
    the first [j] draws leave. *)
Lemma draws_n_lookup {A} (draw : rng R → A * rng R) (n j : nat) (s : rng R) :
  (j < n)%nat → (draws_n draw n s).1 !! j = Some (draw (draws_n draw j s).2).1.
Proof.
  revert j s. induction n as [|n IH]; intros j s Hj; [lia|].
  destruct j as [|j]; simpl.
  - destruct (draw s) as [a s1]. by destruct (draws_n draw n s1).
  - destruct (draw s) as [a s1]. pose proof (IH j s1 ltac:(lia)) as H.
    destruct (draws_n draw n s1), (draws_n draw j s1). done.
Qed.

Lemma draws_n_Forall {A} (draw : rng R → A * rng R) (P : A → Prop) (n : nat) (s : rng R) :
  (∀ st, P (draw st).1) → Forall P (draws_n draw n s).1.
Proof.
  intros H. revert s. induction n as [|n IH]; intros s; [constructor|]. simpl.
  pose proof (H s) as Ha. destruct (draw s) as [a s1]. specialize (IH s1).
  destruct (draws_n draw n s1) as [l s2]. by constructor.
Qed.

Lemma alphabet_length : length (chars alphabet) = 63%nat.
Proof. done. Qed.

Lemma char_draw_alphabet (s : rng R) : (char_draw s).1 ∈ chars alphabet.
Proof.
  unfold char_draw. pose proof (rng_below_lt R 63 s ltac:(done)) as H.
  destruct (rng_below R 63 s) as [i s1]. cbn [fst] in *.
  apply list_elem_of_In, nth_In. rewrite alphabet_length. lia.
Qed.

(** One character of [random.choices]: the draw of an index and the
    character at that index. *)
Lemma draw_of_pick (s : rng R) :
  draw_of (bind (randbelow (N.of_nat (length (chars alphabet))))
             (λ i, index (chars alphabet) (Z.of_N i))) s
  = (Ok (char_draw s).1, (char_draw s).2).
Proof.
  rewrite draw_of_bind by apply pure_draw_randbelow.
  unfold char_draw. pose proof alphabet_length as Hl.
  set (l := chars alphabet) in *. rewrite Hl. change (N.of_nat 63) with 63%N.
  rewrite draw_of_randbelow.
  pose proof (rng_below_lt R 63 s ltac:(done)) as H.
  destruct (rng_below R 63 s) as [i s1]. cbn [fst snd] in *.
  unfold index. rewrite Hl.
  destruct (Z.ltb_spec (Z.of_N i) 0) as [|_]; [lia|].
  destruct (Z.leb_spec 0 (Z.of_N i)) as [_|]; [|lia].
  destruct (Z.ltb_spec (Z.of_N i) (Z.of_nat 63)) as [_|]; [|lia]. cbn [andb].
  replace (Z.to_nat (Z.of_N i)) with (N.to_nat i) by lia.
  destruct (l !! N.to_nat i) as [c|] eqn:E.
  - rewrite draw_of_ret. f_equal. f_equal. symmetry. by apply nth_lookup_Some.
  - apply lookup_ge_None in E. rewrite Hl in E. lia.
Qed.

(** The text generator is the text field of the specification. *)
Lemma draw_of_gen_text (s : rng R) :
  draw_of gen_text s = (Ok (text_draw s).1, (text_draw s).2).
Proof.
  unfold gen_text, text_draw.
  rewrite draw_of_bind, draw_of_random by apply pure_draw_random.
  destruct (rng_random R s) as [k s1]. cbn [fst snd].
  destruct (random_lt k lit_0_03); [by rewrite draw_of_ret|].
  rewrite draw_of_bind by apply pure_draw_randint.
  unfold randint. change (0 <? 50 + 1 - 10) with true. cbv iota.
  rewrite draw_of_bind, draw_of_randbelow by apply pure_draw_randbelow.
  change (Z.to_N (50 + 1 - 10)) with 41%N.
  destruct (rng_below R 41 s1) as [i s2]. cbn [fst snd]. rewrite draw_of_ret.
  rewrite draw_of_bind by apply pure_draw_choices.
  unfold choices.
  rewrite (draw_of_repeat _ char_draw).
  - rewrite length_range.
    replace (Z.to_nat (10 + Z.of_N i)) with (10 + N.to_nat i)%nat by lia.
    destruct (draws_n char_draw (10 + N.to_nat i) s2) as [cs s3]. cbn [fst snd].
    by rewrite draw_of_ret.
  - apply pure_draw_bind; [apply pure_draw_randbelow|]. intros j. apply pure_draw_index.
  - apply draw_of_pick.
Qed.

(** What a text field of the specification looks like. *)
Lemma text_draw_shape (s : rng R) :
  ((text_draw s).1 = "" ↔ random_lt (rng_random R s).1 lit_0_03 = true)
  ∧ (random_lt (rng_random R s).1 lit_0_03 = false →
     String.length (text_draw s).1
     = (10 + N.to_nat (rng_below R 41 (rng_random R s).2).1)%nat
     ∧ (10 ≤ String.length (text_draw s).1 ≤ 50)%nat
     ∧ ∀ c, c ∈ chars (text_draw s).1 → c ∈ chars alphabet).
Proof.
  unfold text_draw. destruct (rng_random R s) as [k s1]. cbn [fst snd].
  destruct (random_lt k lit_0_03); [done|].
  pose proof (rng_below_lt R 41 s1 ltac:(done)) as Hi.
  destruct (rng_below R 41 s1) as [i s2]. cbn [fst] in Hi.
  pose proof (draws_n_length char_draw (10 + N.to_nat i) s2) as Hlen.
  pose proof (draws_n_Forall char_draw (λ c, c ∈ chars alphabet) (10 + N.to_nat i) s2
                char_draw_alphabet) as Hcs.
  destruct (draws_n char_draw (10 + N.to_nat i) s2) as [cs s3]. cbn [fst snd] in *.
  assert (String.length (string_of_list_ascii cs) = (10 + N.to_nat i)%nat) as Hl
    by by rewrite <- length_chars, chars_of_list.
  split.
  - split; [|done]. intros E. rewrite E in Hl. cbn [String.length] in Hl. lia.
  - intros _. split_and!; [done|lia|lia|]. intros c Hc. rewrite chars_of_list in Hc.
    by apply (proj1 (Forall_forall _ _) Hcs).
Qed.

Lemma text_draw_field (s : rng R) : text_field (text_draw s).1.
Proof.
  destruct (text_draw_shape s) as [Hnull Hshape].
  destruct (random_lt (rng_random R s).1 lit_0_03) eqn:E.
  - left. by apply Hnull.
  - right. destruct (Hshape eq_refl) as (_ & Hlen & Hcs). split; [done|].
    apply Forall_forall. intros c Hc.
    apply (proj1 (Forall_forall _ _) alphabet_chars). by apply Hcs.
Qed.

(** What a numeric field of the specification is, by the draw of the null. *)
Lemma numeric_draw_cases (s : rng R) :
  (random_lt (rng_random R s).1 lit_0_05 = true ∧ (numeric_draw s).1 = "")
  ∨ (random_lt (rng_random R s).1 lit_0_05 = false
     ∧ (numeric_draw s).1 = format_2f (rng_gauss R 100 50 (rng_random R s).2).1).
Proof.
  unfold numeric_draw. destruct (rng_random R s) as [k s1]. cbn [fst snd].
  destruct (random_lt k lit_0_05); [by left|right].
  split; [done|]. by destruct (rng_gauss R 100 50 s1).
Qed.

(** A row, field by field: the numeric fields are numeric draws from the
    state the row starts in, then come the categorical fields, and the text
    fields are text draws up to the state the row ends in. *)
Lemma draw_of_gen_row (num_cols : Z) (categories : list (list string))
    (s s' : rng R) (row : list string) :
  draw_of (gen_row num_cols categories) s = (Ok row, s') →
  ∃ cats sb,
    draw_of (for_list (range (categorical_cols num_cols)) (gen_categorical categories))
      (draws_n numeric_draw (Z.to_nat (numeric_cols num_cols)) s).2
    = (Ok cats, sb)
    ∧ row = (draws_n numeric_draw (Z.to_nat (numeric_cols num_cols)) s).1 ++ cats
            ++ (draws_n text_draw (Z.to_nat (text_cols num_cols)) sb).1
    ∧ s' = (draws_n text_draw (Z.to_nat (text_cols num_cols)) sb).2.
Proof.
  unfold gen_row. intros E.
  rewrite draw_of_bind in E
    by (apply pure_draw_for_list; intros; apply pure_draw_gen_numeric).
  rewrite (draw_of_repeat _ numeric_draw) in E
    by (apply pure_draw_gen_numeric || apply draw_of_gen_numeric).
  rewrite length_range in E.
  rewrite draw_of_bind in E
    by (apply pure_draw_for_list; intros; apply pure_draw_gen_categorical).
  destruct (draw_of (for_list (range (categorical_cols num_cols))
                       (gen_categorical categories)) _) as [[cats|e] sb] eqn:Ec; [|done].
  rewrite draw_of_bind in E
    by (apply pure_draw_for_list; intros; apply pure_draw_gen_text).
  rewrite (draw_of_repeat _ text_draw) in E
    by (apply pure_draw_gen_text || apply draw_of_gen_text).
  rewrite length_range, draw_of_ret in E. injection E as <- <-.
  by exists cats, sb.
Qed.

Lemma draw_of_for_list_length {A B} (f : A → M R B) (idxs : list A) (s s' : rng R)
    (out : list B) :
  (∀ x, pure_draw (f x)) →
  draw_of (for_list idxs f) s = (Ok out, s') → length out = length idxs.
Proof.
  intros Hf. revert s out. induction idxs as [|x idxs IH]; intros s out E.
  - change (for_list [] f) with (ret (R:=R) (@nil B)) in E.
    rewrite draw_of_ret in E. by injection E as <- _.
  - apply draw_of_for_list_cons in E as (y & ys & s1 & _ & Hys & ->); [|done].
    simpl. f_equal. by eapply IH.
Qed.

(** The fields of a row by position: numeric field [j] is the numeric draw
    after [j] numeric draws; text field [j] is the text draw after the
    numeric draws, the categorical draws and [j] text draws. *)
Lemma gen_row_fields (num_cols : Z) (categories : list (list string))
    (s s' : rng R) (row : list string) :
  let n := Z.to_nat (numeric_cols num_cols) in
  let c := Z.to_nat (categorical_cols num_cols) in
  let t := Z.to_nat (text_cols num_cols) in
  draw_of (gen_row num_cols categories) s = (Ok row, s') →
  ∃ cats sb,
    draw_of (for_list (range (categorical_cols num_cols)) (gen_categorical categories))
      (draws_n numeric_draw n s).2
    = (Ok cats, sb)
    ∧ length cats = c
    ∧ take n row = (draws_n numeric_draw n s).1
    ∧ drop (n + c) row = (draws_n text_draw t sb).1
    ∧ (∀ j, (j < n)%nat →
         row !! j = Some (numeric_draw (draws_n numeric_draw j s).2).1)
    ∧ (∀ j, (j < t)%nat →
         row !! (n + c + j)%nat = Some (text_draw (draws_n text_draw j sb).2).1).
Proof.
  intros n c t E.
  destruct (draw_of_gen_row num_cols categories s s' row E) as (cats & sb & Hc & -> & _).
  fold n in Hc |- *. fold t.
  assert (length cats = c) as Hlc.
  { unfold c. rewrite <- (length_range (categorical_cols num_cols)).
    eapply draw_of_for_list_length; [|exact Hc].
    intros i. apply pure_draw_gen_categorical. }
  pose proof (draws_n_length numeric_draw n s) as Hln.
  exists cats, sb. split_and!; [done|done| | | |].
  - by rewrite take_app_length' by done.
  - rewrite List.app_assoc, drop_app_length'; [done|]. rewrite length_app. lia.
  - intros j Hj. rewrite lookup_app_l by lia. by apply draws_n_lookup.
  - intros j Hj. rewrite List.app_assoc, lookup_app_r by (rewrite length_app; lia).
    rewrite length_app, Hln, Hlc.
    replace (n + c + j - (n + c))%nat with j by lia. by apply draws_n_lookup.
Qed.

(** Row [i] of a sequence of rows is drawn from the state that the first
    [i] rows leave. *)
Lemma rows_at {A B} (m : M R B) (idxs : list A) (s s2 : rng R) (data : list B) :
  pure_draw m →
  draw_of (for_list idxs (λ _, m)) s = (Ok data, s2) →
  ∀ i row, data !! i = Some row →
    ∃ st st',
      draw_of (for_list (take i idxs) (λ _, m)) s = (Ok (take i data), st)
      ∧ draw_of m st = (Ok row, st').
Proof.
  intros Hm. revert s data. induction idxs as [|x idxs IH]; intros s data E i row Hrow.
  - change (for_list [] (λ _, m)) with (ret (R:=R) (@nil B)) in E.
    rewrite draw_of_ret in E. injection E as <- _. done.
  - apply (draw_of_for_list_cons (λ _, m)) in E as (y & ys & s1 & Hy & Hys & ->); [|done].
    destruct i as [|i].
    + injection Hrow as <-. by exists s, s1.
    + destruct (IH s1 ys Hys i row Hrow) as (st & st' & Hpre & Hst).
      exists st, st'. split; [|done].
      apply (draw_of_for_list_app (λ _, m) [x] (take i idxs) s s1 st [y] (take i ys));
        [done| |done].
      change (for_list [x] (λ _, m))
        with (bind m (λ y, bind (ret (R:=R) (@nil B)) (λ ys, ret (y :: ys)))).
      by rewrite draw_of_bind, Hy by done.
Qed.

(** A run that completes, by its draws: the pools from the state the run
    starts in, then the rows one after the other. *)
Lemma run_draws (path : string) (rows num_cols : Z) (w w' : world R) :
  generate_test_csv path rows num_cols w = (Ok tt, w') →
  ∃ categories s1 data s2,
    draw_of (gen_categories num_cols) (w_rng w) = (Ok categories, s1)
    ∧ Forall2 pool_of (range (categorical_cols num_cols)) categories
    ∧ draw_of (for_list (range rows) (λ _, gen_row num_cols categories)) s1 = (Ok data, s2)
    ∧ w' = World s2 (<[path := file_text (headers num_cols :: data)]> (w_files w))
             (w_locked w)
    ∧ length data = Z.to_nat rows
    ∧ Forall (row_of num_cols categories) data.
Proof.
  intros Hrun. pose proof (proj1 (run_ok_inv _ _ _ _ _ Hrun)) as Hl.
  destruct (plan_draws num_cols (w_rng w)) as (categories & s1 & Hplan & Hcat).
  destruct (rows_draws num_cols categories (range rows) s1 Hcat)
    as (data & s2 & Hdata & Hlen & Hrows).
  rewrite (generate_batch path rows num_cols w categories s1 data s2 Hl Hplan Hdata) in Hrun.
  injection Hrun as <-.
  exists categories, s1, data, s2. split_and!; try done. by rewrite Hlen, length_range.
Qed.

End FieldDrawFacts.

(** * The claims *)

Section Claims.
Context {R : RandomSource}.
Import PyStr PyFloat CsvWriter CsvText Shape.
Implicit Types w : world R.

(** The records of a run all have [num_cols] fields, when [num_cols] is
    not negative. *)
Lemma record_sizes (num_cols : Z) (categories : list (list string))
    (data : list (list string)) :
  0 ≤ num_cols →
  Forall2 pool_of (range (categorical_cols num_cols)) categories →
  Forall (row_of num_cols categories) data →
  Forall (λ r, length r = Z.to_nat num_cols) (headers num_cols :: data).
Proof.
  intros Hn Hcat Hdata. constructor.
  - by rewrite length_headers, cols_total.
  - eapply Forall_impl; [exact Hdata|]. intros row Hrow.
    by rewrite (length_row num_cols categories), cols_total.
Qed.

(** The file of a completed run with at least two columns, read back: no
    record is empty or a single empty field, so the fields of the lines are
    the records. *)
Lemma file_shape (path : string) (rows num_cols : Z) w w' :
  2 ≤ num_cols →
  generate_test_csv path rows num_cols w = (Ok tt, w') →
  ∃ content data,
    w_files w' !! path = Some content
    ∧ fields <$> lines content = headers num_cols :: data
    ∧ length (headers num_cols) = Z.to_nat num_cols
    ∧ length data = Z.to_nat rows
    ∧ Forall (λ r, length r = Z.to_nat num_cols) data
    ∧ length (lines content) = S (Z.to_nat rows)
    ∧ count_LF content = S (Z.to_nat rows).
Proof.
  intros Hcols Hrun.
  apply run_ok_inv in Hrun
    as (_ & categories & data & s1 & s2 & _ & Hcat & -> & Hlen & Hdata).
  pose proof (plain_records num_cols categories data Hcat Hdata) as Hplain.
  pose proof (record_sizes num_cols categories data ltac:(lia) Hcat Hdata) as Hsize.
  destruct (lines_records _ Hplain) as [Hlines Hcount].
  exists (file_text (headers num_cols :: data)), data. split_and!.
  - apply lookup_insert_eq.
  - apply records_read_back; [done|].
    eapply Forall_impl; [exact Hsize|]. intros r Hr. simpl in Hr.
    split; intros ->; simpl in Hr; lia.
  - by apply Forall_cons in Hsize as [? _].
  - done.
  - by apply Forall_cons in Hsize as [_ ?].
  - rewrite Hlines, length_fmap. simpl. by rewrite Hlen.
  - rewrite Hcount. simpl. by rewrite Hlen.
Qed.

(** C1: a run with [column_count >= 3] and [row_count >= 0] that completes
    normally leaves a file of one header record followed by exactly
    [row_count] data records, that is [row_count + 1] lines, and the header
    and every data record have exactly [column_count] fields. *)
Theorem C1_file_records (path : string) (rows num_cols : Z) w w' :
  3 ≤ num_cols → 0 ≤ rows →
  generate_test_csv path rows num_cols w = (Ok tt, w') →
  ∃ content data,
    w_files w' !! path = Some content
    ∧ fields <$> lines content = headers num_cols :: data
    ∧ length (headers num_cols) = Z.to_nat num_cols
    ∧ length data = Z.to_nat rows
    ∧ Forall (λ r, length r = Z.to_nat num_cols) data
    ∧ length (lines content) = S (Z.to_nat rows)
    ∧ count_LF content = S (Z.to_nat rows).
Proof.
  intros Hcols Hrows Hrun.
  destruct (file_shape path rows num_cols w w' ltac:(lia) Hrun)
    as (content & data & Hfile & Hread & Hheader & Hdata & Hsizes & Hlines & Hcount).
  exists content, data. split_and!; done.
Qed.

(** The scenario of the specification: 1000 rows of 9 columns. *)
Example scenario_1000_9 w w' :
  generate_test_csv "out.csv" 1000 9 w = (Ok tt, w') →
  ∃ content data,
    w_files w' !! "out.csv" = Some content
    ∧ fields <$> lines content
      = ["numeric_0"; "numeric_1"; "numeric_2"; "category_0"; "category_1"; "category_2";
         "text_0"; "text_1"; "text_2"] :: data
    ∧ length (lines content) = 1001%nat
    ∧ count_LF content = 1001%nat.
Proof.
  intros Hrun.
  destruct (file_shape "out.csv" 1000 9 w w' ltac:(lia) Hrun)
    as (content & data & H1 & H2 & _ & _ & _ & H3 & H4).
  by exists content, data.
Qed.

(** The scenario of the specification: no rows, 9 columns. *)
Example scenario_0_9 w w' :
  generate_test_csv "out.csv" 0 9 w = (Ok tt, w') →
  w_files w' !! "out.csv"
  = Some ("numeric_0,numeric_1,numeric_2,category_0,category_1,category_2,text_0,text_1,text_2"
          +:+ lineterminator).
Proof.
  intros Hrun.
  apply run_ok_inv in Hrun
    as (_ & categories & data & s1 & s2 & _ & _ & -> & Hlen & _).
  destruct data; [|done]. simpl. by rewrite lookup_insert_eq.
Qed.

(** The command line of the scenario reaches [generate_test_csv] with these
    arguments. *)
Example scenario_argv (w : world Demo.source) :
  main Demo.int_literal ["generate_test_data.py"; "1000"; "9"; "out.csv"] w
  = generate_test_csv "out.csv" 1000 9 w.
Proof. reflexivity. Qed.

(** C2: for every [column_count] the partition is
    [numeric = column_count // 3], [categorical = column_count // 3] and
    [text = column_count - numeric - categorical]; the three counts add up
    to [column_count], and the text group takes the whole remainder of the
    division: [text = column_count // 3 + column_count mod 3]. *)
Theorem C2_partition (num_cols : Z) :
  numeric_cols num_cols = num_cols `div` 3
  ∧ categorical_cols num_cols = num_cols `div` 3
  ∧ text_cols num_cols = num_cols - numeric_cols num_cols - categorical_cols num_cols
  ∧ numeric_cols num_cols + categorical_cols num_cols + text_cols num_cols = num_cols
  ∧ text_cols num_cols = num_cols `div` 3 + num_cols `mod` 3.
Proof.
  split_and!; try done.
  - apply cols_partition.
  - unfold text_cols, numeric_cols, categorical_cols.
    pose proof (Z.div_mod num_cols 3 ltac:(done)). lia.
Qed.

(** The names of one group: [prefix<i>] for [i] from 0 up to the size of
    the group, in order. *)
Lemma group_names (prefix : string) (n : Z) :
  let names := (λ i, prefix +:+ str i) <$> range n in
  length names = Z.to_nat n
  ∧ ∀ i, 0 ≤ i < n → names !! Z.to_nat i = Some (prefix +:+ str i).
Proof.
  simpl. split.
  - by rewrite length_fmap, length_range.
  - intros i Hi. rewrite list_lookup_fmap.
    assert (range n !! Z.to_nat i = Some i) as ->; [|done].
    apply range_lookup. lia.
Qed.

Lemma headers_nonempty_names (num_cols : Z) : headers num_cols ≠ [""].
Proof.
  intros E. assert ("" ∈ headers num_cols) as H by (rewrite E; left).
  unfold headers in H. rewrite !elem_of_app, !list_elem_of_fmap in H.
  destruct H as [(i & Hi & _)|[(i & Hi & _)|(i & Hi & _)]]; discriminate Hi.
Qed.

(** C3: the header row is the numeric names, then the categorical names,
    then the text names; each group is numbered from zero on its own, with
    the names [numeric_<i>], [category_<i>] and [text_<i>], where [<i>] is
    the decimal numeral of [i].  It is the first line of the file of every
    run that completes. *)
Theorem C3_header_names (num_cols : Z) :
  (∃ nums cats texts,
     headers num_cols = nums ++ cats ++ texts
     ∧ length nums = Z.to_nat (numeric_cols num_cols)
     ∧ (∀ i, 0 ≤ i < numeric_cols num_cols →
             nums !! Z.to_nat i = Some ("numeric_" +:+ str i))
     ∧ length cats = Z.to_nat (categorical_cols num_cols)
     ∧ (∀ i, 0 ≤ i < categorical_cols num_cols →
             cats !! Z.to_nat i = Some ("category_" +:+ str i))
     ∧ length texts = Z.to_nat (text_cols num_cols)
     ∧ (∀ i, 0 ≤ i < text_cols num_cols →
             texts !! Z.to_nat i = Some ("text_" +:+ str i)))
  ∧ (∀ i, 0 ≤ i →
          Forall (λ c, is_digit c = true) (chars (str i))
          ∧ Z.of_int <$> NilZero.int_of_string (str i) = Some i)
  ∧ (∀ (path : string) (rows : Z) w w',
       generate_test_csv path rows num_cols w = (Ok tt, w') →
       ∃ content rest,
         w_files w' !! path = Some content
         ∧ lines content = join "," (headers num_cols) :: rest).
Proof.
  split_and!.
  - eexists _, _, _. split; [reflexivity|].
    destruct (group_names "numeric_" (numeric_cols num_cols)) as [? ?].
    destruct (group_names "category_" (categorical_cols num_cols)) as [? ?].
    destruct (group_names "text_" (text_cols num_cols)) as [? ?].
    split_and!; done.
  - intros i Hi. split; [by apply str_nonneg_digits|apply str_read].
  - intros path rows w w' Hrun.
    apply run_ok_inv in Hrun
      as (_ & categories & data & s1 & s2 & _ & Hcat & -> & Hlen & Hdata).
    pose proof (plain_records num_cols categories data Hcat Hdata) as Hplain.
    destruct (lines_records _ Hplain) as [Hlines _].
    exists (file_text (headers num_cols :: data)), (record_text <$> data).
    split; [apply lookup_insert_eq|].
    rewrite Hlines, fmap_cons. f_equal.
    apply record_text_plain; [apply plain_headers|apply headers_nonempty_names].
Qed.

(** Where the fields of each type sit in a row. *)
Lemma row_fields (num_cols : Z) (categories : list (list string)) (row : list string) :
  row_of num_cols categories row →
  (∀ j, (j < Z.to_nat (numeric_cols num_cols))%nat →
        ∃ s, row !! j = Some s ∧ numeric_field s)
  ∧ (∀ i pool, categories !! i = Some pool →
        ∃ s, row !! (Z.to_nat (numeric_cols num_cols) + i)%nat = Some s
             ∧ categorical_field pool s)
  ∧ (∀ j, (j < Z.to_nat (text_cols num_cols))%nat →
        ∃ s, row !! (Z.to_nat (numeric_cols num_cols) + length categories + j)%nat = Some s
             ∧ text_field s).
Proof.
  intros (nums & cats & texts & -> & Hn & Hnums & Hcats & Ht & Htexts). split_and!.
  - intros j Hj. destruct (lookup_lt_is_Some_2 nums j) as [s Hs]; [lia|].
    exists s. split; [by rewrite lookup_app_l by lia|].
    by eapply (proj1 (Forall_lookup _ _) Hnums).
  - intros i pool Hpool.
    destruct (Forall2_lookup_l _ _ _ _ _ Hcats Hpool) as (s & Hs & Hf).
    exists s. split; [|done].
    rewrite lookup_app_r by lia. rewrite Hn, Nat.add_comm, Nat.add_sub.
    rewrite lookup_app_l; [done|]. by eapply lookup_lt_Some.
  - intros j Hj. destruct (lookup_lt_is_Some_2 texts j) as [s Hs]; [lia|].
    exists s. split; [|by eapply (proj1 (Forall_lookup _ _) Htexts)].
    pose proof (Forall2_length _ _ _ Hcats) as Hc.
    rewrite lookup_app_r by lia. rewrite lookup_app_r by lia.
    rewrite <- Hs. f_equal. lia.
Qed.

Lemma label_inj (i j j' : Z) : label i j = label i j' → j = j'.
Proof.
  unfold label. intros H.
  apply String.app_inj in H. apply String.app_inj in H. apply String.app_inj in H.
  by apply str_inj.
Qed.

(** A pool holds the labels of its column, each once, in order. *)
Lemma pool_of_labels (i : Z) (pool : list string) :
  pool_of i pool →
  NoDup pool ∧ (5 ≤ length pool ≤ 50)%nat
  ∧ ∀ j, (j < length pool)%nat → pool !! j = Some (label i (Z.of_nat j)).
Proof.
  intros (n & Hn & ->). split_and!.
  - apply NoDup_fmap_2; [|apply NoDup_seqZ]. intros j j'. apply label_inj.
  - rewrite length_fmap, length_range. lia.
  - rewrite length_fmap, length_range. lia.
  - intros j Hj. rewrite length_fmap, length_range in Hj.
    rewrite list_lookup_fmap.
    assert (range n !! j = Some (Z.of_nat j)) as ->; [|done].
    apply range_lookup. lia.
Qed.

(** C4: each categorical column [i] has one pool, drawn before the file is
    opened: between 5 and 50 distinct labels [Cat<i>_<j>].  In every row,
    the field of that column is empty or a member of that same pool. *)
Theorem C4_category_pools (path : string) (rows num_cols : Z) w w' :
  generate_test_csv path rows num_cols w = (Ok tt, w') →
  ∃ categories s1 data,
    gen_categories num_cols w = (Ok categories, set_rng s1 w)
    ∧ length categories = Z.to_nat (categorical_cols num_cols)
    ∧ (∀ i pool, categories !! i = Some pool →
         NoDup pool ∧ (5 ≤ length pool ≤ 50)%nat
         ∧ ∀ j, (j < length pool)%nat →
                pool !! j = Some ("Cat" +:+ str (Z.of_nat i) +:+ "_" +:+ str (Z.of_nat j)))
    ∧ w_files w' !! path = Some (file_text (headers num_cols :: data))
    ∧ length data = Z.to_nat rows
    ∧ (∀ row, row ∈ data → ∀ i pool, categories !! i = Some pool →
         ∃ s, row !! (Z.to_nat (numeric_cols num_cols) + i)%nat = Some s
              ∧ (s = "" ∨ s ∈ pool))
    ∧ (3 ≤ num_cols →
       fields <$> lines (file_text (headers num_cols :: data)) = headers num_cols :: data).
Proof.
  intros Hrun.
  apply run_ok_inv in Hrun
    as (_ & categories & data & s1 & s2 & E & Hcat & -> & Hlen & Hdata).
  exists categories, s1, data. split_and!.
  - done.
  - by rewrite <- (Forall2_length _ _ _ Hcat), length_range.
  - intros i pool Hpool.
    destruct (Forall2_lookup_r _ _ _ _ _ Hcat Hpool) as (z & Hz & Hof).
    apply range_lookup in Hz as [-> _]. by apply pool_of_labels.
  - apply lookup_insert_eq.
  - done.
  - intros row Hrow i pool Hpool.
    pose proof (proj1 (Forall_forall _ _) Hdata row Hrow) as Hr.
    destruct (row_fields _ _ _ Hr) as (_ & Hc & _). by apply Hc.
  - intros Hcols. apply records_read_back; [by eapply plain_records|].
    pose proof (record_sizes num_cols categories data ltac:(lia) Hcat Hdata) as Hsize.
    eapply Forall_impl; [exact Hsize|]. intros r Hr. simpl in Hr.
    split; intros ->; simpl in Hr; lia.
Qed.

(** The rounded hundredths are within half a hundredth of the float
    [m * 2^e]: for [e < 0], [|100 * m - h * 2^-e| <= 2^-e / 2]. *)
Lemma round_centi_nearest (x : float) :
  let h := round_centi x in
  if 0 <=? f_exp x then h = (100 * f_mant x * 2 ^ Z.to_N (f_exp x))%N
  else
    let d := (2 ^ Z.to_N (- f_exp x))%N in
    (2 * (100 * f_mant x) ≤ 2 * h * d + d ∧ 2 * h * d ≤ 2 * (100 * f_mant x) + d)%N.
Proof.
  unfold round_centi. destruct (0 <=? f_exp x); [done|]. cbv zeta.
  generalize (2 ^ Z.to_N (- f_exp x))%N (100 * f_mant x)%N
             (N.pow_nonzero 2 (Z.to_N (- f_exp x)) (N.succ_0_discr 1)).
  intros d n Hd.
  pose proof (N.div_mod n d Hd) as Hn. pose proof (N.mod_lt n d Hd) as Hr.
  revert Hn Hr. generalize (n / d)%N (n mod d)%N. intros q r Hn Hr.
  destruct (N.ltb_spec d (2 * r)) as [H1|H1]; cbn [orb].
  - split; nia.
  - destruct (N.eqb_spec (2 * r) d) as [H2|H2]; cbn [andb];
      [destruct (N.odd q)|]; split; nia.
Qed.

Lemma gen_numeric_unfold w :
  gen_numeric w
  = let '(k, s) := rng_random R (w_rng w) in
    if random_lt k lit_0_05 then (Ok "", set_rng s w)
    else let '(x, s') := rng_gauss R 100 50 s in (Ok (format_2f x), set_rng s' w).
Proof.
  unfold gen_numeric, bind, random, gauss.
  destruct (rng_random R (w_rng w)) as [k s].
  destruct (random_lt k lit_0_05); [done|]. simpl.
  by destruct (rng_gauss R 100 50 s) as [x s'].
Qed.

Lemma format_2f_nonempty (x : float) : format_2f x ≠ "".
Proof.
  intros E. pose proof (parse_format_2f x) as H. rewrite E in H. discriminate H.
Qed.

(** C5: in every row of a completed run, the field of numeric column [j]
    is what [gen_numeric] returns from the state that the rows before and
    the [j] numeric fields before it leave: it is empty when the draw of
    [random.random()] is below the literal 0.05, and otherwise the [.2f]
    rendering of the draw of [random.gauss(100, 50)] that follows.  That
    rendering is read back as a decimal numeral with exactly two fraction
    digits, the sample rounded to the nearest hundredth.  The generator of
    the code is the numeric field of the specification, [numeric_draw]. *)
Theorem C5_numeric_fields (path : string) (rows num_cols : Z) w w' :
  generate_test_csv path rows num_cols w = (Ok tt, w') →
  (∀ w0 : world R,
     gen_numeric w0
     = (Ok (numeric_draw (w_rng w0)).1, set_rng (numeric_draw (w_rng w0)).2 w0))
  ∧ (∀ k : N, random_lt k lit_0_05 = true ↔ (k < 450359962737050)%N)
  ∧ (∀ x : float,
       format_2f x ≠ ""
       ∧ parse_2f (format_2f x) = Some (f_neg x, round_centi x)
       ∧ (f_exp x < 0 →
          let d := (2 ^ Z.to_N (- f_exp x))%N in
          (2 * (100 * f_mant x) ≤ 2 * round_centi x * d + d
           ∧ 2 * round_centi x * d ≤ 2 * (100 * f_mant x) + d)%N))
  ∧ ∃ categories s1 data s2,
      draw_of (gen_categories num_cols) (w_rng w) = (Ok categories, s1)
      ∧ draw_of (for_list (range rows) (λ _, gen_row num_cols categories)) s1
        = (Ok data, s2)
      ∧ w_files w' !! path = Some (file_text (headers num_cols :: data))
      ∧ length data = Z.to_nat rows
      ∧ ∀ i row, data !! i = Some row →
          ∃ st st',
            draw_of (for_list (take i (range rows)) (λ _, gen_row num_cols categories)) s1
            = (Ok (take i data), st)
            ∧ draw_of (gen_row num_cols categories) st = (Ok row, st')
            ∧ take (Z.to_nat (numeric_cols num_cols)) row
              = (draws_n numeric_draw (Z.to_nat (numeric_cols num_cols)) st).1
            ∧ ∀ j, (j < Z.to_nat (numeric_cols num_cols))%nat →
                ∃ sj f,
                  sj = (draws_n numeric_draw j st).2
                  ∧ row !! j = Some f
                  ∧ draw_of gen_numeric sj = (Ok f, (numeric_draw sj).2)
                  ∧ ((random_lt (rng_random R sj).1 lit_0_05 = true ∧ f = "")
                     ∨ (random_lt (rng_random R sj).1 lit_0_05 = false
                        ∧ ∃ x, x = (rng_gauss R 100 50 (rng_random R sj).2).1
                               ∧ f = format_2f x
                               ∧ parse_2f f = Some (f_neg x, round_centi x))).
Proof.
  intros Hrun. split_and!.
  - intros w0. rewrite (pure_draw_gen_numeric w0). by rewrite draw_of_gen_numeric.
  - intros k. unfold random_lt, lit_0_05. cbn [fst snd]. rewrite N.ltb_lt.
    change (2 ^ 56)%N with 72057594037927936%N.
    change (2 ^ 53)%N with 9007199254740992%N. lia.
  - intros x. split_and!.
    + apply format_2f_nonempty.
    + apply parse_format_2f.
    + intros He. pose proof (round_centi_nearest x) as H.
      destruct (Z.leb_spec 0 (f_exp x)); [lia|]. exact H.
  - apply run_draws in Hrun
      as (categories & s1 & data & s2 & Hplan & Hcat & Hdata & -> & Hlen & _).
    exists categories, s1, data, s2.
    split_and!; [done|done|apply lookup_insert_eq|done|].
    intros i row Hrow.
    destruct (rows_at _ _ _ _ _ (pure_draw_gen_row num_cols categories) Hdata i row Hrow)
      as (st & st' & Hpre & Hst).
    destruct (gen_row_fields num_cols categories st st' row Hst)
      as (cats & sb & _ & _ & Htake & _ & Hnum & _).
    exists st, st'. split_and!; [done|done|done|].
    intros j Hj. exists (draws_n numeric_draw j st).2, (numeric_draw (draws_n numeric_draw j st).2).1.
    split_and!; [done|by apply Hnum|apply draw_of_gen_numeric|].
    destruct (numeric_draw_cases (draws_n numeric_draw j st).2) as [[Hk E]|[Hk E]].
    + by left.
    + right. split; [done|]. eexists. split; [reflexivity|]. split; [done|].
      rewrite E. apply parse_format_2f.
Qed.

(** The alphabet of the text fields is exactly A-Z, a-z, 0-9 and space. *)
Lemma alphabet_spec (c : ascii) : c ∈ chars alphabet ↔ is_alnum_space c = true.
Proof.
  split.
  - intros H. by apply (proj1 (Forall_forall _ _) alphabet_chars).
  - intros H. apply (bool_decide_unpack _).
    destruct c as [[] [] [] [] [] [] [] []];
      first [discriminate H|vm_compute; exact I].
Qed.

(** C6: in every row of a completed run, the field of text column [j] is
    what [gen_text] returns from the state that the rows before, the numeric
    and categorical fields of the row and the [j] text fields before it
    leave: it is empty exactly when the draw of [random.random()] is below
    the literal 0.03, and otherwise a string of 10 to 50 characters, each of
    them one of A-Z, a-z, 0-9 and space.  The generator of the code is the
    text field of the specification, [text_draw]: a length [10 + i] for a
    draw [i] below 41, then that many characters of the alphabet. *)
Theorem C6_text_fields (path : string) (rows num_cols : Z) w w' :
  generate_test_csv path rows num_cols w = (Ok tt, w') →
  (∀ c : ascii, c ∈ chars alphabet ↔ is_alnum_space c = true)
  ∧ (∀ w0 : world R,
       gen_text w0 = (Ok (text_draw (w_rng w0)).1, set_rng (text_draw (w_rng w0)).2 w0))
  ∧ (∀ k : N, random_lt k lit_0_03 = true ↔ (k < 270215977642230)%N)
  ∧ (∀ s : rng R,
       ((text_draw s).1 = "" ↔ random_lt (rng_random R s).1 lit_0_03 = true)
       ∧ (random_lt (rng_random R s).1 lit_0_03 = false →
          String.length (text_draw s).1
          = (10 + N.to_nat (rng_below R 41 (rng_random R s).2).1)%nat
          ∧ (10 ≤ String.length (text_draw s).1 ≤ 50)%nat
          ∧ ∀ c, c ∈ chars (text_draw s).1 → c ∈ chars alphabet))
  ∧ ∃ categories s1 data s2,
      draw_of (gen_categories num_cols) (w_rng w) = (Ok categories, s1)
      ∧ draw_of (for_list (range rows) (λ _, gen_row num_cols categories)) s1
        = (Ok data, s2)
      ∧ w_files w' !! path = Some (file_text (headers num_cols :: data))
      ∧ length data = Z.to_nat rows
      ∧ ∀ i row, data !! i = Some row →
          ∃ st st' cats sb,
            draw_of (for_list (take i (range rows)) (λ _, gen_row num_cols categories)) s1
            = (Ok (take i data), st)
            ∧ draw_of (gen_row num_cols categories) st = (Ok row, st')
            ∧ draw_of (for_list (range (categorical_cols num_cols))
                         (gen_categorical categories))
                (draws_n numeric_draw (Z.to_nat (numeric_cols num_cols)) st).2
              = (Ok cats, sb)
            ∧ drop (Z.to_nat (numeric_cols num_cols) + Z.to_nat (categorical_cols num_cols))
                row
              = (draws_n text_draw (Z.to_nat (text_cols num_cols)) sb).1
            ∧ ∀ j, (j < Z.to_nat (text_cols num_cols))%nat →
                ∃ sj f,
                  sj = (draws_n text_draw j sb).2
                  ∧ row !! (Z.to_nat (numeric_cols num_cols)
                            + Z.to_nat (categorical_cols num_cols) + j)%nat = Some f
                  ∧ draw_of gen_text sj = (Ok f, (text_draw sj).2)
                  ∧ (f = "" ↔ random_lt (rng_random R sj).1 lit_0_03 = true)
                  ∧ (f = "" ∨ ((10 ≤ String.length f ≤ 50)%nat
                               ∧ ∀ c, c ∈ chars f → c ∈ chars alphabet)).
Proof.
  intros Hrun. split_and!.
  - apply alphabet_spec.
  - intros w0. rewrite (pure_draw_gen_text w0). by rewrite draw_of_gen_text.
  - intros k. unfold random_lt, lit_0_03. cbn [fst snd]. rewrite N.ltb_lt.
    change (2 ^ 55)%N with 36028797018963968%N.
    change (2 ^ 53)%N with 9007199254740992%N. lia.
  - apply text_draw_shape.
  - apply run_draws in Hrun
      as (categories & s1 & data & s2 & Hplan & Hcat & Hdata & -> & Hlen & _).
    exists categories, s1, data, s2.
    split_and!; [done|done|apply lookup_insert_eq|done|].
    intros i row Hrow.
    destruct (rows_at _ _ _ _ _ (pure_draw_gen_row num_cols categories) Hdata i row Hrow)
      as (st & st' & Hpre & Hst).
    destruct (gen_row_fields num_cols categories st st' row Hst)
      as (cats & sb & Hc & _ & _ & Hdrop & _ & Htext).
    exists st, st', cats, sb. split_and!; [done|done|done|done|].
    intros j Hj. exists (draws_n text_draw j sb).2, (text_draw (draws_n text_draw j sb).2).1.
    destruct (text_draw_shape (draws_n text_draw j sb).2) as [Hnull Hshape].
    split_and!; [done|by apply Htext|apply draw_of_gen_text|done|].
    destruct (random_lt (rng_random R (draws_n text_draw j sb).2).1 lit_0_03) eqn:E.
    + left. by apply Hnull.
    + right. destruct (Hshape eq_refl) as (_ & Hl & Hcs). done.
Qed.

(** C10: with one or two columns there is no numeric and no categorical
    column: the header holds text names only, no pool is drawn (the plan
    leaves the random generator as it was), and every field of every row is
    a text field. *)
Theorem C10_text_only (path : string) (rows num_cols : Z) w w' :
  num_cols = 1 ∨ num_cols = 2 →
  generate_test_csv path rows num_cols w = (Ok tt, w') →
  numeric_cols num_cols = 0
  ∧ categorical_cols num_cols = 0
  ∧ text_cols num_cols = num_cols
  ∧ headers num_cols = (λ i, "text_" +:+ str i) <$> range num_cols
  ∧ gen_categories num_cols w = (Ok [], w)
  ∧ ∃ data,
      w_files w' !! path = Some (file_text (headers num_cols :: data))
      ∧ length data = Z.to_nat rows
      ∧ ∀ row, row ∈ data →
          length row = Z.to_nat num_cols ∧ Forall text_field row.
Proof.
  intros Hcols Hrun.
  assert (numeric_cols num_cols = 0 ∧ categorical_cols num_cols = 0
          ∧ text_cols num_cols = num_cols) as (Hn & Hc & Ht)
    by (destruct Hcols as [-> | ->]; done).
  split_and!; try done.
  - destruct Hcols as [-> | ->]; done.
  - destruct Hcols as [-> | ->]; done.
  - apply run_ok_inv in Hrun
      as (_ & categories & data & s1 & s2 & _ & Hcat & -> & Hlen & Hdata).
    exists data. split_and!; [apply lookup_insert_eq|done|].
    intros row Hrow.
    pose proof (proj1 (Forall_forall _ _) Hdata row Hrow) as Hr.
    split.
    + rewrite (length_row num_cols categories) by done. rewrite Hn, Hc, Ht. lia.
    + destruct Hr as (nums & cats & texts & -> & Hln & _ & Hcats & _ & Htexts).
      rewrite Hc in Hcat. apply Forall2_nil_inv_l in Hcat as ->.
      apply Forall2_nil_inv_l in Hcats as ->.
      rewrite Hn in Hln. destruct nums; [|done]. done.
Qed.

(** The sizes of the three groups add up to one column only for
    [num_cols = 1] and [num_cols = -1]. *)
Lemma single_column (num_cols : Z) :
  (Z.to_nat (numeric_cols num_cols) + Z.to_nat (categorical_cols num_cols)
   + Z.to_nat (text_cols num_cols))%nat = 1%nat →
  num_cols = 1 ∨ num_cols = -1.
Proof.
  unfold text_cols, categorical_cols, numeric_cols.
  pose proof (Z.div_mod num_cols 3 ltac:(done)).
  pose proof (Z.mod_pos_bound num_cols 3 ltac:(done)). lia.
Qed.

Lemma no_columns (num_cols : Z) :
  num_cols ≤ 0 → num_cols ≠ -1 → headers num_cols = [].
Proof.
  intros H1 H2. apply nil_length_inv. rewrite length_headers.
  unfold text_cols, categorical_cols, numeric_cols.
  pose proof (Z.div_mod num_cols 3 ltac:(done)).
  pose proof (Z.mod_pos_bound num_cols 3 ltac:(done)). lia.
Qed.

(** C7, as the code has it: the script has no check of the sign of its
    counts.  A completed run with [row_count <= 0] leaves the header line
    only.  A completed run with [column_count <= 0] leaves a header with no
    column and rows with no field, except for [column_count = -1]: floor
    division gives the partition (-1, -1, 1), the header is the single
    column [text_0] and every row is one text field. *)
Theorem C7_degenerate_counts (path : string) (rows num_cols : Z) w w' :
  generate_test_csv path rows num_cols w = (Ok tt, w') →
  ∃ data,
    w_files w' !! path = Some (file_text (headers num_cols :: data))
    ∧ length data = Z.to_nat rows
    ∧ (rows ≤ 0 →
       data = [] ∧ w_files w' !! path = Some (CsvWriter.writerow (headers num_cols)))
    ∧ (num_cols ≤ 0 → num_cols ≠ -1 →
       headers num_cols = [] ∧ CsvWriter.writerow (headers num_cols) = lineterminator
       ∧ ∀ row, row ∈ data → row = [])
    ∧ (numeric_cols (-1) = -1 ∧ categorical_cols (-1) = -1 ∧ text_cols (-1) = 1
       ∧ headers (-1) = ["text_0"])
    ∧ (num_cols = -1 →
       ∀ row, row ∈ data →
         ∃ st : rng R, row = [(text_draw st).1] ∧ text_field (text_draw st).1).
Proof.
  intros Hrun.
  apply run_draws in Hrun
    as (categories & s1 & data & s2 & Hplan & Hcat & Hdata & -> & Hlen & Hrows).
  exists data. split_and!; try done.
  - apply lookup_insert_eq.
  - intros Hr. replace (Z.to_nat rows) with 0%nat in Hlen by lia.
    destruct data; [|done]. split; [done|].
    simpl. by rewrite lookup_insert_eq, sapp_nil_r.
  - intros H1 H2. pose proof (no_columns num_cols H1 H2) as Hh.
    rewrite Hh. split_and!; [done|done|].
    intros row Hrow. apply nil_length_inv.
    rewrite (length_row num_cols categories) by
      (done || by apply (proj1 (Forall_forall _ _) Hrows)).
    by rewrite <- length_headers, Hh.
  - intros -> row Hrow. apply list_elem_of_lookup in Hrow as [i Hrow].
    destruct (rows_at _ _ _ _ _ (pure_draw_gen_row (-1) categories) Hdata i row Hrow)
      as (st & st' & _ & Hst).
    destruct (gen_row_fields (-1) categories st st' row Hst)
      as (cats & sb & Hc & _ & _ & Hdrop & _ & _).
    change (draw_of (ret (R:=R) (@nil string)) st = (Ok cats, sb)) in Hc.
    rewrite draw_of_ret in Hc. injection Hc as <- <-.
    change (row = (draws_n text_draw 1 st).1) in Hdrop.
    exists st. split; [|apply text_draw_field].
    rewrite Hdrop. cbn [draws_n]. by destruct (text_draw st).
Qed.

Lemma record_text_no_break (fs : list string) :
  Forall plain fs → Forall (λ c, c ≠ CR ∧ c ≠ LF) (chars (record_text fs)).
Proof.
  intros H. destruct (decide (fs = [""])) as [->|Hne].
  - rewrite record_text_single_empty. by repeat constructor.
  - rewrite record_text_plain by done. apply join_chars.
    + by repeat constructor.
    + eapply Forall_impl; [exact H|]. intros f Hf.
      eapply Forall_impl; [exact Hf|]. intros c Hc. simpl in Hc.
      split; intros ->; by vm_compute in Hc.
Qed.

Lemma plain_spec (s : string) (c : ascii) :
  plain s → c ∈ chars s → c ≠ comma ∧ c ≠ quote ∧ c ≠ CR ∧ c ≠ LF.
Proof.
  intros H Hc. pose proof (proj1 (Forall_forall _ _) H c Hc) as Hs. simpl in Hs.
  split_and!; intros ->; by vm_compute in Hs.
Qed.

(** C9, as the code has it: no field the generator emits contains a comma,
    a quote character or a line break.  So every record is written as its
    fields joined by commas, nothing quoted or escaped, except a record
    that is one empty field, which the writer emits as two quote
    characters; such a record needs a run of a single column
    ([column_count] 1 or -1).  Every record occupies exactly one line. *)
Theorem C9_fields_unquoted (path : string) (rows num_cols : Z) w w' :
  generate_test_csv path rows num_cols w = (Ok tt, w') →
  ∃ data : list (list string),
    let records := headers num_cols :: data in
    w_files w' !! path = Some (file_text records)
    ∧ length data = Z.to_nat rows
    ∧ (∀ r f c, r ∈ records → f ∈ r → c ∈ chars f →
                c ≠ comma ∧ c ≠ quote ∧ c ≠ CR ∧ c ≠ LF)
    ∧ (∀ r, r ∈ records → r ≠ [""] → record_text r = join "," r)
    ∧ (∀ r, r ∈ records → r = [""] → num_cols = 1 ∨ num_cols = -1)
    ∧ record_text [""] = String quote (String quote "")
    ∧ lines (file_text records) = record_text <$> records
    ∧ (∀ r c, r ∈ records → c ∈ chars (record_text r) → c ≠ CR ∧ c ≠ LF)
    ∧ count_LF (file_text records) = length records.
Proof.
  intros Hrun.
  apply run_ok_inv in Hrun
    as (_ & categories & data & s1 & s2 & _ & Hcat & -> & Hlen & Hdata).
  pose proof (plain_records num_cols categories data Hcat Hdata) as Hplain.
  destruct (lines_records _ Hplain) as [Hlines Hcount].
  exists data. cbv zeta. split_and!; try done.
  - apply lookup_insert_eq.
  - intros r f c Hr Hf Hc.
    pose proof (proj1 (Forall_forall _ _) Hplain r Hr) as Hpr.
    pose proof (proj1 (Forall_forall _ _) Hpr f Hf) as Hpf.
    by apply (plain_spec f).
  - intros r Hr Hne. apply record_text_plain; [|done].
    by apply (proj1 (Forall_forall _ _) Hplain r Hr).
  - intros r Hr ->. apply elem_of_cons in Hr as [Hr|Hr].
    + symmetry in Hr. by apply headers_nonempty_names in Hr.
    + pose proof (proj1 (Forall_forall _ _) Hdata _ Hr) as Hrow.
      apply single_column. by rewrite <- (length_row num_cols categories [""]).
  - intros r c Hr Hc.
    pose proof (proj1 (Forall_forall _ _) Hplain r Hr) as Hpr.
    by apply (proj1 (Forall_forall _ _) (record_text_no_break r Hpr)).
Qed.

End Claims.

(** ** The command line *)

Section MainClaims.
Context {R : RandomSource}.
Context (py_int : string → option Z).
Implicit Types w : world R.

Lemma int_fails (a : string) w : py_int a = None → int py_int a w = (Raise ValueError, w).
Proof. intros H. unfold int. by rewrite H. Qed.

(** C8: when the first or the second argument is not an integer for [int],
    the script stops with [ValueError] and a nonzero exit status, and the
    world is as it was: no file was created, truncated or written.  A run
    that completes exits with status 0. *)
Theorem C8_parse_error (argv : list string) w :
  ((∃ a, argv !! 1%nat = Some a ∧ py_int a = None)
   ∨ (∃ a, argv !! 2%nat = Some a ∧ py_int a = None) →
   main py_int argv w = (Raise ValueError, w)
   ∧ exit_status (main py_int argv w).1 = 1)
  ∧ (∀ w', main py_int argv w = (Ok tt, w') →
           exit_status (main py_int argv w).1 = 0).
Proof.
  split.
  - intros H.
    assert (main py_int argv w = (Raise ValueError, w)) as E; [|by rewrite E].
    unfold main.
    destruct (argv !! 1%nat) as [a1|] eqn:E1.
    + destruct (py_int a1) as [z1|] eqn:P1.
      * destruct H as [(a & [= <-] & Ha)|(a & E2 & Ha)]; [congruence|].
        assert (int py_int a1 w = (Ok z1, w)) as Hz by (unfold int; by rewrite P1).
        rewrite (bind_ok _ _ _ _ _ Hz). rewrite E2.
        by rewrite (bind_raise _ _ _ _ _ (int_fails a w Ha)).
      * by rewrite (bind_raise _ _ _ _ _ (int_fails a1 w P1)).
    + destruct H as [(a & [=] & _)|(a & E2 & _)].
      apply lookup_lt_Some in E2. apply lookup_ge_None in E1. lia.
  - intros w' E. by rewrite E.
Qed.

End MainClaims.


(** ** The claims on concrete runs *)

Section Runs.
Import PyStr PyFloat CsvWriter CsvText Shape.

(** The file of the demo world can always be opened, so its runs complete. *)
Lemma demo_run (seed : N) (rows num_cols : Z) :
  generate_test_csv "out.csv" rows num_cols (Demo.world0 seed)
  = (Ok tt, Demo.after seed rows num_cols).
Proof.
  unfold Demo.after.
  pose proof (proj1 (run_completes "out.csv" rows num_cols (Demo.world0 seed))
                (not_elem_of_empty (C:=gset string) _)) as H.
  destruct (generate_test_csv "out.csv" rows num_cols (Demo.world0 seed)) as [r w'].
  simpl in H. by rewrite H.
Qed.

Lemma C1_witness :
  ∃ content data,
    w_files (Demo.after 42 2 9) !! "out.csv" = Some content
    ∧ fields <$> lines content = headers 9 :: data
    ∧ length (headers 9) = Z.to_nat 9
    ∧ length data = Z.to_nat 2
    ∧ Forall (λ r, length r = Z.to_nat 9) data
    ∧ length (lines content) = S (Z.to_nat 2)
    ∧ count_LF content = S (Z.to_nat 2).
Proof.
  refine (C1_file_records (R:=Demo.source) "out.csv" 2 9 (Demo.world0 42)
            (Demo.after 42 2 9) _ _ (demo_run 42 2 9)); lia.
Defined.

Lemma C3_witness :
  ∃ content rest,
    w_files (Demo.after 42 1 7) !! "out.csv" = Some content
    ∧ lines content = join "," (headers 7) :: rest.
Proof.
  exact (proj2 (proj2 (C3_header_names (R:=Demo.source) 7))
           "out.csv" 1 (Demo.world0 42) (Demo.after 42 1 7) (demo_run 42 1 7)).
Defined.

Lemma C4_witness :
  ∃ categories s1 data,
    gen_categories 9 (Demo.world0 42) = (Ok categories, set_rng s1 (Demo.world0 42))
    ∧ length categories = Z.to_nat (categorical_cols 9)
    ∧ w_files (Demo.after 42 2 9) !! "out.csv" = Some (file_text (headers 9 :: data))
    ∧ length data = Z.to_nat 2.
Proof.
  destruct (C4_category_pools (R:=Demo.source) "out.csv" 2 9 (Demo.world0 42)
              (Demo.after 42 2 9) (demo_run 42 2 9))
    as (categories & s1 & data & E & Hl & _ & Hf & Hd & _).
  exact (ex_intro _ categories (ex_intro _ s1 (ex_intro _ data
           (conj E (conj Hl (conj Hf Hd)))))).
Defined.

Lemma C5_witness :
  ∃ categories s1 data s2,
    draw_of (gen_categories 9) (w_rng (Demo.world0 42)) = (Ok categories, s1)
    ∧ draw_of (for_list (range 2) (λ _, gen_row 9 categories)) s1 = (Ok data, s2)
    ∧ w_files (Demo.after 42 2 9) !! "out.csv" = Some (file_text (headers 9 :: data))
    ∧ length data = Z.to_nat 2
    ∧ ∀ i row, data !! i = Some row →
        ∃ st st',
          draw_of (for_list (take i (range 2)) (λ _, gen_row 9 categories)) s1
          = (Ok (take i data), st)
          ∧ draw_of (gen_row 9 categories) st = (Ok row, st')
          ∧ take (Z.to_nat (numeric_cols 9)) row
            = (draws_n numeric_draw (Z.to_nat (numeric_cols 9)) st).1
          ∧ ∀ j, (j < Z.to_nat (numeric_cols 9))%nat →
              ∃ sj f,
                sj = (draws_n numeric_draw j st).2
                ∧ row !! j = Some f
                ∧ draw_of gen_numeric sj = (Ok f, (numeric_draw sj).2)
                ∧ ((random_lt (rng_random Demo.source sj).1 lit_0_05 = true ∧ f = "")
                   ∨ (random_lt (rng_random Demo.source sj).1 lit_0_05 = false
                      ∧ ∃ x, x = (rng_gauss Demo.source 100 50
                                    (rng_random Demo.source sj).2).1
                             ∧ f = format_2f x
                             ∧ parse_2f f = Some (f_neg x, round_centi x))).
Proof.
  exact (proj2 (proj2 (proj2
           (C5_numeric_fields (R:=Demo.source) "out.csv" 2 9 (Demo.world0 42)
              (Demo.after 42 2 9) (demo_run 42 2 9))))).
Defined.

Lemma C6_witness :
  ∃ categories s1 data s2,
    draw_of (gen_categories 9) (w_rng (Demo.world0 42)) = (Ok categories, s1)
    ∧ draw_of (for_list (range 2) (λ _, gen_row 9 categories)) s1 = (Ok data, s2)
    ∧ w_files (Demo.after 42 2 9) !! "out.csv" = Some (file_text (headers 9 :: data))
    ∧ length data = Z.to_nat 2
    ∧ ∀ i row, data !! i = Some row →
        ∃ st st' cats sb,
          draw_of (for_list (take i (range 2)) (λ _, gen_row 9 categories)) s1
          = (Ok (take i data), st)
          ∧ draw_of (gen_row 9 categories) st = (Ok row, st')
          ∧ draw_of (for_list (range (categorical_cols 9)) (gen_categorical categories))
              (draws_n numeric_draw (Z.to_nat (numeric_cols 9)) st).2
            = (Ok cats, sb)
          ∧ drop (Z.to_nat (numeric_cols 9) + Z.to_nat (categorical_cols 9)) row
            = (draws_n text_draw (Z.to_nat (text_cols 9)) sb).1
          ∧ ∀ j, (j < Z.to_nat (text_cols 9))%nat →
              ∃ sj f,
                sj = (draws_n text_draw j sb).2
                ∧ row !! (Z.to_nat (numeric_cols 9) + Z.to_nat (categorical_cols 9) + j)%nat
                  = Some f
                ∧ draw_of gen_text sj = (Ok f, (text_draw sj).2)
                ∧ (f = "" ↔ random_lt (rng_random Demo.source sj).1 lit_0_03 = true)
                ∧ (f = "" ∨ ((10 ≤ String.length f ≤ 50)%nat
                             ∧ ∀ c, c ∈ chars f → c ∈ chars alphabet)).
Proof.
  exact (proj2 (proj2 (proj2 (proj2
           (C6_text_fields (R:=Demo.source) "out.csv" 2 9 (Demo.world0 42)
              (Demo.after 42 2 9) (demo_run 42 2 9)))))).
Defined.

Lemma C7_witness :
  (w_files (Demo.after 42 0 0) !! "out.csv" = Some (CsvWriter.writerow (headers 0))
   ∧ headers 0 = [] ∧ CsvWriter.writerow (headers 0) = lineterminator)
  ∧ ∃ data,
      w_files (Demo.after 7 2 (-1)) !! "out.csv" = Some (file_text (headers (-1) :: data))
      ∧ length data = Z.to_nat 2
      ∧ ∀ row, row ∈ data →
          ∃ st : rng Demo.source, row = [(text_draw st).1] ∧ text_field (text_draw st).1.
Proof.
  destruct (C7_degenerate_counts (R:=Demo.source) "out.csv" 0 0 (Demo.world0 42)
              (Demo.after 42 0 0) (demo_run 42 0 0))
    as (data0 & _ & _ & Hrows0 & Hcols0 & _).
  destruct (C7_degenerate_counts (R:=Demo.source) "out.csv" 2 (-1) (Demo.world0 7)
              (Demo.after 7 2 (-1)) (demo_run 7 2 (-1)))
    as (data & Hfile & Hlen & _ & _ & _ & Hrows).
  exact (conj
           (conj (proj2 (Hrows0 (Z.le_refl 0)))
              (conj (proj1 (Hcols0 (Z.le_refl 0) ltac:(discriminate)))
                 (proj1 (proj2 (Hcols0 (Z.le_refl 0) ltac:(discriminate))))))
           (ex_intro _ data (conj Hfile (conj Hlen (Hrows eq_refl))))).
Defined.

(** C7 fails at [column_count = -1]: the header has one column. *)
Lemma C7_counterexample :
  -1 ≤ 0
  ∧ headers (-1) = ["text_0"]
  ∧ length (headers (-1)) = 1%nat
  ∧ (Demo.run 7 ["0"; "-1"; "out.csv"]).1 = Ok tt
  ∧ w_files (Demo.run 7 ["0"; "-1"; "out.csv"]).2 !! "out.csv"
    = Some ("text_0" +:+ lineterminator).
Proof. split_and!; [lia|done|done|by vm_compute|by vm_compute]. Qed.

Lemma C8_witness :
  main Demo.int_literal ["generate_test_data.py"; "x2"; "9"] (Demo.world0 42)
  = (Raise ValueError, Demo.world0 42)
  ∧ exit_status
      (main Demo.int_literal ["generate_test_data.py"; "x2"; "9"] (Demo.world0 42)).1
    = 1.
Proof.
  exact (proj1 (C8_parse_error (R:=Demo.source) Demo.int_literal
                  ["generate_test_data.py"; "x2"; "9"] (Demo.world0 42))
           (or_introl (ex_intro _ "x2" (conj eq_refl eq_refl)))).
Defined.

Lemma C9_witness :
  ∃ data : list (list string),
    let records := headers 1 :: data in
    w_files (Demo.after 7 1 1) !! "out.csv" = Some (file_text records)
    ∧ length data = Z.to_nat 1
    ∧ (∀ r f c, r ∈ records → f ∈ r → c ∈ chars f →
                c ≠ comma ∧ c ≠ quote ∧ c ≠ CR ∧ c ≠ LF)
    ∧ (∀ r, r ∈ records → r ≠ [""] → record_text r = join "," r)
    ∧ (∀ r, r ∈ records → r = [""] → 1 = 1 ∨ 1 = -1)
    ∧ record_text [""] = String quote (String quote "")
    ∧ lines (file_text records) = record_text <$> records
    ∧ (∀ r c, r ∈ records → c ∈ chars (record_text r) → c ≠ CR ∧ c ≠ LF)
    ∧ count_LF (file_text records) = length records.
Proof.
  exact (C9_fields_unquoted (R:=Demo.source) "out.csv" 1 1 (Demo.world0 7)
           (Demo.after 7 1 1) (demo_run 7 1 1)).
Defined.

(** C9 fails on a run of one column: the row of one empty text field is
    written as two quote characters. *)
Lemma C9_counterexample :
  (Demo.run 7 ["1"; "1"; "out.csv"]).1 = Ok tt
  ∧ w_files (Demo.run 7 ["1"; "1"; "out.csv"]).2 !! "out.csv"
    = Some ("text_0" +:+ lineterminator
            +:+ String quote (String quote lineterminator))
  ∧ CsvWriter.writerow [""] = String quote (String quote lineterminator).
Proof. split_and!; [by vm_compute|by vm_compute|done]. Qed.

Lemma C10_witness :
  numeric_cols 2 = 0
  ∧ categorical_cols 2 = 0
  ∧ text_cols 2 = 2
  ∧ headers 2 = (λ i, "text_" +:+ str i) <$> range 2
  ∧ gen_categories 2 (Demo.world0 42) = (Ok [], Demo.world0 42)
  ∧ ∃ data,
      w_files (Demo.after 42 3 2) !! "out.csv" = Some (file_text (headers 2 :: data))
      ∧ length data = Z.to_nat 3
      ∧ ∀ row, row ∈ data → length row = Z.to_nat 2 ∧ Forall text_field row.
Proof.
  exact (C10_text_only (R:=Demo.source) "out.csv" 3 2 (Demo.world0 42)
           (Demo.after 42 3 2) (or_intror eq_refl) (demo_run 42 3 2)).
Defined.

End Runs.

(** * Further properties of the script *)

(** ** Names, labels and widths *)

Section NameFacts.
Context {R : RandomSource}.
Import PyStr Shape.
Implicit Types w : world R.

Lemma prefixed_inj (prefix : string) (i j : Z) :
  prefix +:+ str i = prefix +:+ str j → i = j.
Proof. intros H. apply String.app_inj in H. by apply str_inj. Qed.

Lemma NoDup_names (prefix : string) (n : Z) :
  NoDup ((λ i, prefix +:+ str i) <$> range n).
Proof.
  apply NoDup_fmap_2; [|apply NoDup_seqZ]. intros i j. apply prefixed_inj.
Qed.

(** X2: the column names of the header are pairwise distinct, for every
    [num_cols]. *)
Theorem X2_header_names_distinct (num_cols : Z) : NoDup (headers num_cols).
Proof.
  unfold headers. apply NoDup_app. split_and!.
  - apply NoDup_names.
  - intros x Hx Hx'. apply list_elem_of_fmap in Hx as (i & -> & _).
    apply elem_of_app in Hx' as [Hx'|Hx'];
      apply list_elem_of_fmap in Hx' as (j & Hj & _); discriminate Hj.
  - apply NoDup_app. split_and!.
    + apply NoDup_names.
    + intros x Hx Hx'. apply list_elem_of_fmap in Hx as (i & -> & _).
      apply list_elem_of_fmap in Hx' as (j & Hj & _). discriminate Hj.
    + apply NoDup_names.
Qed.

(** Two numerals followed by an underscore and a rest: equal texts have
    equal numerals and equal rests. *)
Lemma numeral_underscore_inj (a a' b b' : string) :
  Forall (λ c, is_digit c = true) (chars a) →
  Forall (λ c, is_digit c = true) (chars a') →
  a +:+ String "_"%char b = a' +:+ String "_"%char b' → a = a' ∧ b = b'.
Proof.
  revert a'. induction a as [|c a IH]; intros [|c' a'] Ha Ha' E.
  - rewrite !sapp_nil_l in E. by injection E as ->.
  - rewrite sapp_nil_l, sapp_cons in E. injection E as <- _.
    rewrite chars_cons in Ha'. apply Forall_cons in Ha' as [Hc _]. by vm_compute in Hc.
  - rewrite sapp_nil_l, sapp_cons in E. injection E as -> _.
    rewrite chars_cons in Ha. apply Forall_cons in Ha as [Hc _]. by vm_compute in Hc.
  - rewrite !sapp_cons in E. injection E as -> E.
    rewrite chars_cons in Ha, Ha'.
    apply Forall_cons in Ha as [_ Ha]. apply Forall_cons in Ha' as [_ Ha'].
    destruct (IH a' Ha Ha' E) as [-> ->]. done.
Qed.

(** A label names its column and its entry. *)
Lemma label_inj2 (i j i' j' : Z) :
  0 ≤ i → 0 ≤ i' → label i j = label i' j' → i = i' ∧ j = j'.
Proof.
  intros Hi Hi' E. unfold label in E. apply String.app_inj in E.
  apply numeral_underscore_inj in E as [Ei Ej]; [|by apply str_nonneg_digits..].
  split; by apply str_inj.
Qed.

(** X3: the pools of two different categorical columns share no label: a
    non-empty categorical value tells its column.  The labels of one pool
    are those of the entries [0 .. size - 1], each exactly once. *)
Theorem X3_pools_disjoint (num_cols : Z) w :
  ∃ categories s,
    gen_categories num_cols w = (Ok categories, set_rng s w)
    ∧ (∀ i i' pool pool' v,
         categories !! i = Some pool → categories !! i' = Some pool' →
         v ∈ pool → v ∈ pool' → i = i')
    ∧ (∀ i pool j j',
         categories !! i = Some pool →
         pool !! j = pool !! j' → (j < length pool)%nat → j = j').
Proof.
  destruct (draws_gen_categories num_cols w) as (categories & s & E & Hcat).
  exists categories, s. split; [done|].
  assert (∀ i pool, categories !! i = Some pool → pool_of (Z.of_nat i) pool) as Hpool.
  { intros i pool Hi. destruct (Forall2_lookup_r _ _ _ _ _ Hcat Hi) as (z & Hz & Hof).
    by apply range_lookup in Hz as [-> _]. }
  split.
  - intros i i' pool pool' v Hi Hi' Hv Hv'.
    destruct (Hpool i pool Hi) as (n & _ & ->).
    destruct (Hpool i' pool' Hi') as (n' & _ & ->).
    apply list_elem_of_fmap in Hv as (j & -> & _).
    apply list_elem_of_fmap in Hv' as (j' & Hj & _).
    apply label_inj2 in Hj as [Hj _]; lia.
  - intros i pool j j' Hi Hjj Hj.
    destruct (pool_of_labels _ _ (Hpool i pool Hi)) as (Hnd & _ & _).
    destruct (lookup_lt_is_Some_2 pool j Hj) as [v Hv].
    rewrite Hv in Hjj. by eapply NoDup_lookup.
Qed.

(** X1: for every [num_cols], negative ones included, each row of a
    completed run has exactly as many fields as the header has names; for
    [num_cols >= 0] that is [num_cols]. *)
Theorem X1_rows_match_header (path : string) (rows num_cols : Z) w w' :
  generate_test_csv path rows num_cols w = (Ok tt, w') →
  ∃ data,
    w_files w' !! path = Some (file_text (headers num_cols :: data))
    ∧ Forall (λ row, length row = length (headers num_cols)) data
    ∧ (0 ≤ num_cols → length (headers num_cols) = Z.to_nat num_cols).
Proof.
  intros Hrun.
  apply run_ok_inv in Hrun
    as (_ & categories & data & s1 & s2 & _ & Hcat & -> & Hlen & Hdata).
  exists data. split_and!.
  - apply lookup_insert_eq.
  - eapply Forall_impl; [exact Hdata|]. intros row Hrow. simpl.
    by rewrite (length_row num_cols categories), length_headers.
  - intros H. by rewrite length_headers, cols_total.
Qed.

End NameFacts.

(** ** What a run depends on, and what it leaves alone *)

Section RunExtras.
Context {R : RandomSource}.
Import PyStr Shape.
Implicit Types w : world R.

(** X7: the row loop draws and writes row after row, and still the file is
    what drawing first would give: the pools are drawn from the state of the
    generator, then all the rows, none of these draws looks at a file, and the
    file is the header and these rows. *)
Theorem X7_streaming_is_batch (path : string) (rows num_cols : Z) w :
  path ∉ w_locked w →
  ∃ categories s1 data s2,
    draw_of (gen_categories num_cols) (w_rng w) = (Ok categories, s1)
    ∧ draw_of (for_list (range rows) (λ _, gen_row num_cols categories)) s1 = (Ok data, s2)
    ∧ generate_test_csv path rows num_cols w
      = (Ok tt, World s2 (<[path := file_text (headers num_cols :: data)]> (w_files w))
                  (w_locked w)).
Proof.
  intros Hl.
  destruct (plan_draws num_cols (w_rng w)) as (categories & s1 & Hcat & Hpools).
  destruct (rows_draws num_cols categories (range rows) s1 Hpools)
    as (data & s2 & Hdata & _ & _).
  exists categories, s1, data, s2. split_and!; [done|done|].
  by apply (generate_batch path rows num_cols w categories s1).
Qed.

(** X4: what a run writes depends on the state of the random generator, on
    [rows] and on [num_cols] only.  Two runs from the same state write the
    same text and leave the generator in the same state, whatever the paths
    and whatever the files held before; the old content of the output file is
    replaced, every other file is kept. *)
Theorem X4_content_independent (path1 path2 : string) (rows num_cols : Z)
    (w1 w2 : world R) :
  w_rng w1 = w_rng w2 → path1 ∉ w_locked w1 → path2 ∉ w_locked w2 →
  ∃ content s,
    generate_test_csv path1 rows num_cols w1
    = (Ok tt, World s (<[path1 := content]> (w_files w1)) (w_locked w1))
    ∧ generate_test_csv path2 rows num_cols w2
      = (Ok tt, World s (<[path2 := content]> (w_files w2)) (w_locked w2))
    ∧ (∀ p, p ≠ path1 →
            w_files (generate_test_csv path1 rows num_cols w1).2 !! p = w_files w1 !! p).
Proof.
  intros Hrng Hl1 Hl2.
  destruct (plan_draws num_cols (w_rng w1)) as (categories & s1 & Hcat & Hpools).
  destruct (rows_draws num_cols categories (range rows) s1 Hpools)
    as (data & s2 & Hdata & _ & _).
  exists (file_text (headers num_cols :: data)), s2.
  pose proof (generate_batch path1 rows num_cols w1 _ _ _ _ Hl1 Hcat Hdata) as E1.
  rewrite Hrng in Hcat.
  pose proof (generate_batch path2 rows num_cols w2 _ _ _ _ Hl2 Hcat Hdata) as E2.
  split_and!; [done|done|].
  intros p Hp. rewrite E1. simpl. by apply lookup_insert_ne.
Qed.

(** X5: when the output file cannot be opened the run stops with [OSError].
    The pools have been drawn by then, so the random generator has moved on,
    but no file is created or changed. *)
Theorem X5_open_failure (path : string) (rows num_cols : Z) w :
  path ∈ w_locked w →
  (generate_test_csv path rows num_cols w).1 = Raise OSError
  ∧ (generate_test_csv path rows num_cols w).2 = (gen_categories num_cols w).2
  ∧ w_files (generate_test_csv path rows num_cols w).2 = w_files w
  ∧ w_locked (generate_test_csv path rows num_cols w).2 = w_locked w.
Proof.
  intros Hl.
  destruct (generate_test_csv_run path rows num_cols w) as (categories & s1 & E & _ & H).
  rewrite decide_True in H by done. rewrite H, E. done.
Qed.

(** X6: asking for more rows extends the file.  From the same world, the
    file of [rows2] rows starts with the whole file of [rows1 <= rows2]
    rows. *)
Theorem X6_more_rows_extend (path : string) (rows1 rows2 num_cols : Z) w :
  path ∉ w_locked w → 0 ≤ rows1 ≤ rows2 →
  ∃ content more s1 s2,
    generate_test_csv path rows1 num_cols w
    = (Ok tt, World s1 (<[path := content]> (w_files w)) (w_locked w))
    ∧ generate_test_csv path rows2 num_cols w
      = (Ok tt, World s2 (<[path := content +:+ more]> (w_files w)) (w_locked w)).
Proof.
  intros Hl Hrows.
  destruct (plan_draws num_cols (w_rng w)) as (categories & s0 & Hcat & Hpools).
  destruct (rows_draws num_cols categories (range rows1) s0 Hpools)
    as (data1 & s1 & Hdata1 & _ & _).
  destruct (rows_draws num_cols categories (seqZ rows1 (rows2 - rows1)) s1 Hpools)
    as (data2 & s2 & Hdata2 & _ & _).
  assert (range rows2 = range rows1 ++ seqZ rows1 (rows2 - rows1)) as Hsplit.
  { unfold range. replace rows2 with (rows1 + (rows2 - rows1)) at 1 by lia.
    rewrite seqZ_app by lia. done. }
  pose proof (draw_of_for_list_app (λ _, gen_row num_cols categories) _ _ _ _ _ _ _
                (λ _, pure_draw_gen_row num_cols categories) Hdata1 Hdata2) as Hdata.
  rewrite <- Hsplit in Hdata.
  exists (file_text (headers num_cols :: data1)), (file_text data2), s1, s2. split.
  - by apply (generate_batch path rows1 num_cols w categories s0).
  - rewrite (generate_batch path rows2 num_cols w categories s0 _ s2 Hl Hcat Hdata).
    by rewrite app_comm_cons, file_text_app.
Qed.

End RunExtras.

(** ** Nulls, degenerate widths and the progress indicator *)

Section FieldExtras.
Context {R : RandomSource}.
Import PyStr PyFloat Shape.
Implicit Types w : world R.

Lemma label_nonempty (i j : Z) : label i j ≠ "".
Proof. done. Qed.

(** The value of a text field that is not null has at least ten
    characters. *)
Lemma draws_text_value :
  draws (bind (randint (R:=R) 10 50)
           (λ length, bind (choices (chars alphabet) length)
                        (λ cs, ret (string_of_list_ascii cs))))
        (λ s, (10 ≤ String.length s)%nat).
Proof.
  eapply draws_bind; [by apply draws_randint|].
  intros len Hlen. simpl in Hlen.
  eapply draws_bind; [apply draws_choices, alphabet_nonempty|].
  intros cs [Hn _]. apply draws_ret.
  rewrite <- length_chars, chars_of_list. lia.
Qed.

Lemma draws_categorical_value (categories : list (list string)) (i : Z)
    (pool : list string) :
  0 ≤ i → categories !! Z.to_nat i = Some pool → pool_of i pool →
  draws (bind (index (R:=R) categories i) (λ pool, choice pool)) (λ s, s ≠ "").
Proof.
  intros Hi Hpool Hof. eapply draws_bind.
  - apply draws_index. apply lookup_lt_Some in Hpool. lia.
  - intros pool' E. simpl in E. rewrite Hpool in E. injection E as <-.
    eapply draws_weaken; [apply draws_choice; by eapply pool_of_nonempty|].
    intros s Hs. simpl in Hs. destruct Hof as (n & _ & ->).
    apply list_elem_of_fmap in Hs as (j & -> & _). apply label_nonempty.
Qed.

Lemma bind_random_eq {A} (k : N → M R A) w :
  bind random k w
  = k (rng_random R (w_rng w)).1 (set_rng (rng_random R (w_rng w)).2 w).
Proof. unfold bind, random. by destruct (rng_random R (w_rng w)). Qed.

(** X8: in every column type the empty field is the null and nothing else:
    a generator returns the empty string exactly when its draw of
    [random.random()] is below its literal (0.05, 0.02, 0.03); a value that
    is drawn is never empty.  For the categorical literal 0.02 the draws
    [k / 2^53] below it are those with [k < 180143985094820]. *)
Theorem X8_empty_means_null w :
  ((gen_numeric w).1 = Ok "" ↔ random_lt (rng_random R (w_rng w)).1 lit_0_05 = true)
  ∧ ((gen_text w).1 = Ok "" ↔ random_lt (rng_random R (w_rng w)).1 lit_0_03 = true)
  ∧ (∀ (categories : list (list string)) (i : Z) (pool : list string),
       0 ≤ i → categories !! Z.to_nat i = Some pool → pool_of i pool →
       ((gen_categorical categories i w).1 = Ok ""
        ↔ random_lt (rng_random R (w_rng w)).1 lit_0_02 = true))
  ∧ (∀ k : N, random_lt k lit_0_02 = true ↔ (k < 180143985094820)%N).
Proof.
  split_and!.
  - rewrite gen_numeric_unfold. destruct (rng_random R (w_rng w)) as [k s]. simpl.
    destruct (random_lt k lit_0_05); [done|].
    destruct (rng_gauss R 100 50 s) as [x s']. simpl. split; [|done].
    intros [= H]. by apply format_2f_nonempty in H.
  - unfold gen_text. rewrite bind_random_eq.
    destruct (random_lt (rng_random R (w_rng w)).1 lit_0_03); [done|].
    destruct (draws_text_value (set_rng (rng_random R (w_rng w)).2 w))
      as (v & s' & E & Hv).
    rewrite E. simpl. split; [|done]. intros [= ->]. simpl in Hv. lia.
  - intros categories i pool Hi Hpool Hof.
    unfold gen_categorical. rewrite bind_random_eq.
    destruct (random_lt (rng_random R (w_rng w)).1 lit_0_02); [done|].
    destruct (draws_categorical_value categories i pool Hi Hpool Hof
                (set_rng (rng_random R (w_rng w)).2 w)) as (v & s' & E & Hv).
    rewrite E. simpl. split; [|done]. by intros [= ->].
  - intros k. unfold random_lt, lit_0_02. cbn [fst snd]. rewrite N.ltb_lt.
    change (2 ^ 58)%N with 288230376151711744%N.
    change (2 ^ 53)%N with 9007199254740992%N. lia.
Qed.

Lemma all_nil_replicate {A} (l : list (list A)) :
  Forall (λ r, r = []) l → l = replicate (length l) [].
Proof. induction 1 as [|r l -> _ IH]; [done|]. simpl. by rewrite <- IH. Qed.

(** X11: a run with no column ([num_cols <= 0] other than -1) that completes
    writes an empty header and empty rows: the file is [rows + 1] line
    terminators (one when [rows <= 0]), every line is empty. *)
Theorem X11_no_columns_file (path : string) (rows num_cols : Z) w w' :
  num_cols ≤ 0 → num_cols ≠ -1 →
  generate_test_csv path rows num_cols w = (Ok tt, w') →
  w_files w' !! path = Some (file_text (replicate (S (Z.to_nat rows)) []))
  ∧ CsvText.lines (file_text (replicate (S (Z.to_nat rows)) []))
    = replicate (S (Z.to_nat rows)) ""
  ∧ String.length (file_text (replicate (S (Z.to_nat rows)) []))
    = (2 * S (Z.to_nat rows))%nat.
Proof.
  intros H1 H2 Hrun.
  apply run_ok_inv in Hrun
    as (_ & categories & data & s1 & s2 & _ & Hcat & -> & Hlen & Hdata).
  pose proof (no_columns num_cols H1 H2) as Hh.
  assert (data = replicate (Z.to_nat rows) []) as ->.
  { rewrite <- Hlen. apply all_nil_replicate.
    eapply Forall_impl; [exact Hdata|]. intros row Hrow. simpl.
    apply nil_length_inv.
    by rewrite (length_row num_cols categories), <- length_headers, Hh. }
  rewrite Hh. split_and!.
  - apply lookup_insert_eq.
  - generalize (S (Z.to_nat rows)). intros n.
    induction n as [|n IH]; [done|]. simpl. rewrite <- IH. done.
  - generalize (S (Z.to_nat rows)). intros n.
    induction n as [|n IH]; [done|].
    change (file_text (replicate (S n) [])) with
      (String CR (String LF (file_text (replicate n [])))).
    simpl. rewrite IH. lia.
Qed.

End FieldExtras.

Section ProgressFacts.

Lemma progress_step (n : Z) :
  0 ≤ n →
  (n + 1) `div` 100000 = n `div` 100000 + (if progress_due n then 1 else 0).
Proof.
  intros Hn. unfold progress_due.
  destruct (Z.eqb_spec ((n + 1) `mod` 100000) 0) as [E|E];
    revert E; Z.to_euclidean_division_equations; lia.
Qed.

Lemma progress_count (n : nat) :
  length (filter (λ row_num, progress_due row_num = true) (range (Z.of_nat n)))
  = Z.to_nat (Z.of_nat n `div` 100000).
Proof.
  induction n as [|n IH]; [done|].
  unfold range in *. rewrite seqZ_S, filter_app, length_app, IH, Z.add_0_l.
  replace (Z.of_nat (S n)) with (Z.of_nat n + 1) by lia.
  rewrite (progress_step (Z.of_nat n)) by lia.
  assert (0 ≤ Z.of_nat n `div` 100000) by (apply Z.div_pos; lia).
  destruct (progress_due (Z.of_nat n)) eqn:E.
  - rewrite filter_cons_True by done. rewrite filter_nil. simpl. lia.
  - rewrite filter_cons_False by congruence. rewrite filter_nil. simpl. lia.
Qed.

(** X12: the progress line appears after every 100000th row and only then:
    the counts it shows are the positive multiples of 100000 up to [rows],
    so a run of [rows] rows prints [rows // 100000] progress lines, none
    when [rows < 100000]. *)
Theorem X12_progress_lines (rows : Z) :
  (∀ n, n ∈ progress_points rows ↔ 0 < n ≤ rows ∧ n `mod` 100000 = 0)
  ∧ length (progress_points rows) = Z.to_nat (rows `div` 100000)
  ∧ (rows < 100000 → progress_points rows = []).
Proof.
  assert (length (progress_points rows) = Z.to_nat (rows `div` 100000)) as Hlen.
  { unfold progress_points. rewrite length_fmap.
    destruct (Z_lt_le_dec rows 0) as [Hneg|Hpos].
    - unfold range. rewrite seqZ_nil by lia. simpl.
      assert (rows `div` 100000 < 0) by (apply Z.div_lt_upper_bound; lia). lia.
    - rewrite <- (Z2Nat.id rows) by done. rewrite progress_count.
      by rewrite Z2Nat.id. }
  split_and!.
  - intros n. unfold progress_points.
    rewrite list_elem_of_fmap. split.
    + intros (i & -> & Hi). apply list_elem_of_filter in Hi as [Hd Hi].
      apply elem_of_range in Hi. unfold progress_due in Hd.
      apply Z.eqb_eq in Hd. lia.
    + intros [Hn Hm]. exists (n - 1). split; [lia|].
      apply list_elem_of_filter. split.
      * unfold progress_due. apply Z.eqb_eq. by replace (n - 1 + 1) with n by lia.
      * apply elem_of_range. lia.
  - done.
  - intros Hsmall. apply nil_length_inv. rewrite Hlen.
    destruct (Z_lt_le_dec rows 0) as [Hneg|Hpos].
    + assert (rows `div` 100000 < 0) by (apply Z.div_lt_upper_bound; lia). lia.
    + rewrite Z.div_small by lia. done.
Qed.

End ProgressFacts.

(** ** The command line, all cases *)

Section MainExtras.
Context {R : RandomSource}.
Context (py_int : string → option Z).
Implicit Types w : world R.

(** An optional argument either parses (or is absent and the default is
    taken), or stops the script with [ValueError]; the world is the same. *)
Lemma argument_cases (o : option string) (d : Z) w :
  (∃ z, (match o with Some a => int py_int a | None => ret d end) w = (Ok z, w)
        ∧ ∀ a, o = Some a → is_Some (py_int a))
  ∨ ((match o with Some a => int py_int a | None => ret d end) w = (Raise ValueError, w)
     ∧ ∃ a, o = Some a ∧ py_int a = None).
Proof.
  destruct o as [a|].
  - unfold int. destruct (py_int a) as [z|] eqn:E.
    + left. exists z. split; [done|]. intros a' [= <-]. by rewrite E.
    + right. split; [done|]. by exists a.
  - left. exists d. split; [done|]. by intros a [=].
Qed.

(** The value of an argument that parses, or the default. *)
Lemma argument_value (o : option string) (d z : Z) w w1 :
  (match o with Some a => int py_int a | None => ret d end) w = (Ok z, w1) →
  match o with Some a => py_int a | None => Some d end = Some z.
Proof.
  destruct o as [a|]; [|by intros [= <- _]].
  unfold int. destruct (py_int a); [by intros [= <- _]|done].
Qed.

(** X9: the command line, case by case.  When the first or the second
    argument is given and is not an integer for [int], or when the output
    path (the third argument, or the default name) cannot be opened, the
    script ends with an exception, exit status 1, and no file has been
    created or changed.  When the script runs to its end, the arguments were
    integers (or absent: 5000000 rows, 100 columns), the path could be
    opened, the file at the path is the header and as many rows as the first
    argument says, and every other file is as it was. *)
Theorem X9_command_line_cases (argv : list string) w :
  ((∃ a, argv !! 1%nat = Some a ∧ py_int a = None)
   ∨ (∃ a, argv !! 2%nat = Some a ∧ py_int a = None)
   ∨ default default_output (argv !! 3%nat) ∈ w_locked w →
   (∃ e, (main py_int argv w).1 = Raise e)
   ∧ exit_status (main py_int argv w).1 = 1
   ∧ w_files (main py_int argv w).2 = w_files w)
  ∧ (∀ w', main py_int argv w = (Ok tt, w') →
       ∃ num_rows num_cols data,
         match argv !! 1%nat with Some a => py_int a | None => Some 5000000 end
         = Some num_rows
         ∧ match argv !! 2%nat with Some a => py_int a | None => Some 100 end
           = Some num_cols
         ∧ (default default_output (argv !! 3%nat) ∉ w_locked w)
         ∧ generate_test_csv (default default_output (argv !! 3%nat)) num_rows num_cols w
           = (Ok tt, w')
         ∧ w_files w' !! (default default_output (argv !! 3%nat))
           = Some (Shape.file_text (headers num_cols :: data))
         ∧ length data = Z.to_nat num_rows
         ∧ ∀ p, p ≠ default default_output (argv !! 3%nat) →
                w_files w' !! p = w_files w !! p).
Proof.
  unfold main.
  destruct (argument_cases (argv !! 1%nat) 5000000 w)
    as [(z1 & E1 & H1)|(E1 & a1 & Ha1 & Hp1)].
  - rewrite (bind_ok _ _ _ _ _ E1).
    destruct (argument_cases (argv !! 2%nat) 100 w)
      as [(z2 & E2 & H2)|(E2 & a2 & Ha2 & Hp2)].
    + rewrite (bind_ok _ _ _ _ _ E2). cbv zeta.
      set (output := default default_output (argv !! 3%nat)).
      split.
      * intros [(a & Ha & Hp)|[(a & Ha & Hp)|Hl]].
        { destruct (H1 a Ha) as [z Hz]. congruence. }
        { destruct (H2 a Ha) as [z Hz]. congruence. }
        destruct (generate_test_csv_run output z1 z2 w)
          as (categories & s1 & _ & _ & Hrun).
        rewrite decide_True in Hrun by done. rewrite Hrun. simpl.
        split_and!; [by exists OSError|done|done].
      * intros w' Hrun. exists z1, z2.
        pose proof (argument_value _ _ _ _ _ E1) as V1.
        pose proof (argument_value _ _ _ _ _ E2) as V2.
        destruct (run_ok_inv _ _ _ _ _ Hrun)
          as (Hl & categories & data & s1 & s2 & _ & _ & -> & Hlen & _).
        exists data. split_and!; try done.
        { apply lookup_insert_eq. }
        intros p Hp. simpl. by rewrite lookup_insert_ne.
    + rewrite (bind_raise _ _ _ _ _ E2). simpl. split; [|done].
      intros _. split_and!; [by exists ValueError|done|done].
  - rewrite (bind_raise _ _ _ _ _ E1). simpl. split; [|done].
    intros _. split_and!; [by exists ValueError|done|done].
Qed.

(** X10: the script reads its first three arguments only: further
    arguments change nothing, and the third is taken as the path as it is,
    never parsed. *)
Theorem X10_further_arguments_ignored (argv : list string) w :
  main py_int argv w = main py_int (take 4 argv) w.
Proof. unfold main. by rewrite !lookup_take_lt by lia. Qed.

End MainExtras.

(** ** The encoding of the file *)

Section EncodingFacts.
Context {R : RandomSource}.
Import PyStr PyFloat CsvWriter Shape.
Implicit Types w : world R.

Lemma ascii7_digit (c : ascii) : is_digit c = true → ascii7 c = true.
Proof.
  unfold is_digit, ascii7. intros H. apply andb_true_iff in H as [_ H].
  apply N.leb_le in H. apply N.ltb_lt. lia.
Qed.

Lemma ascii7_alnum_space (c : ascii) : is_alnum_space c = true → ascii7 c = true.
Proof.
  unfold is_alnum_space, ascii7. intros H. apply N.ltb_lt.
  repeat (apply orb_true_iff in H as [H|H]);
    try (apply andb_true_iff in H as [_ H]; apply N.leb_le in H; lia).
  apply N.eqb_eq in H. lia.
Qed.

Lemma ascii7_app (a b : string) : ascii7_text a → ascii7_text b → ascii7_text (a +:+ b).
Proof. unfold ascii7_text. rewrite chars_app, Forall_app. done. Qed.

Lemma ascii7_str (i : Z) : ascii7_text (str i).
Proof.
  eapply Forall_impl; [apply str_chars|].
  intros c [H| ->]; [by apply ascii7_digit|done].
Qed.

Lemma ascii7_headers (num_cols : Z) : Forall ascii7_text (headers num_cols).
Proof.
  unfold headers. rewrite !Forall_app, !Forall_fmap. split_and!;
    apply Forall_true; intros i; apply ascii7_app; try apply ascii7_str;
    by repeat constructor.
Qed.

Lemma ascii7_row (num_cols : Z) (categories : list (list string)) (row : list string) :
  Forall2 pool_of (range (categorical_cols num_cols)) categories →
  row_of num_cols categories row → Forall ascii7_text row.
Proof.
  intros Hcat (nums & cats & texts & -> & _ & Hn & Hc & _ & Ht).
  rewrite !Forall_app. split_and!.
  - eapply Forall_impl; [exact Hn|]. intros s [->|[x ->]]; [constructor|].
    eapply Forall_impl; [apply format_2f_chars|].
    intros c [H|[->| ->]]; [by apply ascii7_digit|done|done].
  - apply Forall_lookup. intros k s Hs.
    destruct (Forall2_lookup_r _ _ _ _ _ Hc Hs) as (pool & Hpool & [->|Hin]);
      [constructor|].
    destruct (Forall2_lookup_r _ _ _ _ _ Hcat Hpool) as (i & _ & n & _ & ->).
    apply list_elem_of_fmap in Hin as (j & -> & _).
    unfold label. repeat apply ascii7_app; try apply ascii7_str; by repeat constructor.
  - eapply Forall_impl; [exact Ht|]. intros s [->|[_ H]]; [constructor|].
    eapply Forall_impl; [exact H|]. apply ascii7_alnum_space.
Qed.

Lemma ascii7_file_text (recs : list (list string)) :
  Forall (Forall plain) recs → Forall (Forall ascii7_text) recs →
  ascii7_text (file_text recs).
Proof.
  intros Hp Ha. induction Ha as [|r recs Hr _ IH]; [constructor|].
  apply Forall_cons in Hp as [Hpr Hp]. simpl.
  apply ascii7_app; [|by apply IH].
  unfold writerow. apply ascii7_app; [|by repeat constructor].
  destruct (decide (r = [""])) as [->|Hne].
  - rewrite record_text_single_empty. by repeat constructor.
  - rewrite record_text_plain by done. apply join_chars; [by repeat constructor|done].
Qed.

(** X13: the file of a completed run holds characters of 7-bit ASCII only,
    for every [rows] and [num_cols]; so the [utf-8] encoding the file is
    opened with writes one byte per character. *)
Theorem X13_file_is_ascii (path : string) (rows num_cols : Z) w w' :
  generate_test_csv path rows num_cols w = (Ok tt, w') →
  ∃ content,
    w_files w' !! path = Some content
    ∧ ∀ c, c ∈ chars content → (N_of_ascii c < 128)%N.
Proof.
  intros Hrun.
  apply run_ok_inv in Hrun
    as (_ & categories & data & s1 & s2 & _ & Hcat & -> & Hlen & Hdata).
  exists (file_text (headers num_cols :: data)). split; [apply lookup_insert_eq|].
  intros c Hc.
  assert (ascii7_text (file_text (headers num_cols :: data))) as H.
  { apply ascii7_file_text; [by eapply plain_records|].
    constructor; [apply ascii7_headers|].
    eapply Forall_impl; [exact Hdata|]. intros row. by apply ascii7_row. }
  pose proof (proj1 (Forall_forall _ _) H c Hc) as H7. simpl in H7.
  by apply N.ltb_lt.
Qed.

End EncodingFacts.

(** ** The further properties on concrete runs *)

Section ExtraRuns.
Import PyStr Shape.

Lemma X1_witness :
  ∃ data,
    w_files (Demo.after 42 2 7) !! "out.csv" = Some (file_text (headers 7 :: data))
    ∧ Forall (λ row, length row = length (headers 7)) data
    ∧ (0 ≤ 7 → length (headers 7) = Z.to_nat 7).
Proof.
  exact (X1_rows_match_header (R:=Demo.source) "out.csv" 2 7 (Demo.world0 42)
           (Demo.after 42 2 7) (demo_run 42 2 7)).
Defined.

Lemma X4_witness :
  ∃ content s,
    generate_test_csv "out.csv" 2 7 (Demo.world0 42)
    = (Ok tt, World s (<["out.csv" := content]> (w_files (Demo.world0 42)))
                (w_locked (Demo.world0 42)))
    ∧ generate_test_csv "old.csv" 2 7 (Demo.world_old 42)
      = (Ok tt, World s (<["old.csv" := content]> (w_files (Demo.world_old 42)))
                  (w_locked (Demo.world_old 42)))
    ∧ (∀ p, p ≠ "out.csv" →
            w_files (generate_test_csv "out.csv" 2 7 (Demo.world0 42)).2 !! p
            = w_files (Demo.world0 42) !! p).
Proof.
  exact (X4_content_independent (R:=Demo.source) "out.csv" "old.csv" 2 7
           (Demo.world0 42) (Demo.world_old 42) eq_refl
           (not_elem_of_empty (C:=gset string) "out.csv")
           (not_elem_of_empty (C:=gset string) "old.csv")).
Defined.

Lemma X5_witness :
  (generate_test_csv "out.csv" 2 7 (Demo.world_locked 42)).1 = Raise OSError
  ∧ (generate_test_csv "out.csv" 2 7 (Demo.world_locked 42)).2
    = (gen_categories 7 (Demo.world_locked 42)).2
  ∧ w_files (generate_test_csv "out.csv" 2 7 (Demo.world_locked 42)).2
    = w_files (Demo.world_locked 42)
  ∧ w_locked (generate_test_csv "out.csv" 2 7 (Demo.world_locked 42)).2
    = w_locked (Demo.world_locked 42).
Proof.
  exact (X5_open_failure (R:=Demo.source) "out.csv" 2 7 (Demo.world_locked 42)
           (proj2 (elem_of_singleton (C:=gset string) "out.csv" "out.csv") eq_refl)).
Defined.

Lemma X6_witness :
  ∃ content more s1 s2,
    generate_test_csv "out.csv" 1 4 (Demo.world0 42)
    = (Ok tt, World s1 (<["out.csv" := content]> (w_files (Demo.world0 42)))
                (w_locked (Demo.world0 42)))
    ∧ generate_test_csv "out.csv" 3 4 (Demo.world0 42)
      = (Ok tt, World s2 (<["out.csv" := content +:+ more]> (w_files (Demo.world0 42)))
                  (w_locked (Demo.world0 42))).
Proof.
  refine (X6_more_rows_extend (R:=Demo.source) "out.csv" 1 3 4 (Demo.world0 42)
            (not_elem_of_empty (C:=gset string) "out.csv") _).
  split; lia.
Defined.

Lemma X7_witness :
  ∃ categories s1 data s2,
    draw_of (gen_categories 7) (w_rng (Demo.world0 42)) = (Ok categories, s1)
    ∧ draw_of (for_list (range 2) (λ _, gen_row 7 categories)) s1 = (Ok data, s2)
    ∧ generate_test_csv "out.csv" 2 7 (Demo.world0 42)
      = (Ok tt, World s2 (<["out.csv" := file_text (headers 7 :: data)]>
                            (w_files (Demo.world0 42)))
                  (w_locked (Demo.world0 42))).
Proof.
  exact (X7_streaming_is_batch (R:=Demo.source) "out.csv" 2 7 (Demo.world0 42)
           (not_elem_of_empty (C:=gset string) "out.csv")).
Defined.

Lemma X11_witness :
  w_files (Demo.after 42 2 0) !! "out.csv"
  = Some (file_text (replicate (S (Z.to_nat 2)) []))
  ∧ CsvText.lines (file_text (replicate (S (Z.to_nat 2)) []))
    = replicate (S (Z.to_nat 2)) ""
  ∧ String.length (file_text (replicate (S (Z.to_nat 2)) []))
    = (2 * S (Z.to_nat 2))%nat.
Proof.
  refine (X11_no_columns_file (R:=Demo.source) "out.csv" 2 0 (Demo.world0 42)
            (Demo.after 42 2 0) _ _ (demo_run 42 2 0)); lia.
Defined.

Lemma X13_witness :
  ∃ content,
    w_files (Demo.after 42 2 7) !! "out.csv" = Some content
    ∧ ∀ c, c ∈ chars content → (N_of_ascii c < 128)%N.
Proof.
  exact (X13_file_is_ascii (R:=Demo.source) "out.csv" 2 7 (Demo.world0 42)
           (Demo.after 42 2 7) (demo_run 42 2 7)).
Defined.

End ExtraRuns.
